(** * sway-session.py: saving and restoring a Sway session

    A shallow embedding of [sway/.config/sway/sway-session.py] and the
    properties its specification states about it.

    The script works on values produced by [json.loads]; they are modelled
    by [pyval].  Exceptions are explicit ([result]); the two external
    collaborators (the [/proc] file system and the compositor reached through
    [swaymsg]) are explicit environments. *)

From Stdlib Require Import List ZArith Bool Ascii String Lia Arith PeanoNat.
From Stdlib Require Import Floats.SpecFloat.
From Stdlib Require Strings.Byte.
From Stdlib Require Import DecimalString.
Import ListNotations.

Set Warnings "-register-all".

Local Open Scope string_scope.
Local Open Scope list_scope.

(* ================================================================== *)
(** ** Python values *)

Module Py.

(** The values [json.loads] can return.  A [str] is kept as the bytes of its
    UTF-8 encoding, which preserves equality, emptiness and concatenation.
    A [dict] is kept as an association list in which the first binding of a
    key is the live one. *)
Inductive pyval : Type :=
| PNone
| PBool (b : bool)
| PInt (z : Z)
| PFloat (f : spec_float)
| PStr (s : string)
| PList (l : list pyval)
| PDict (d : list (string * pyval)).

(** Exception classes that can reach the code under study. *)
Inductive exn : Type :=
| AttributeError
| TypeError
| ValueError
| RecursionError
| JSONDecodeError
| CalledProcessError
| SystemExit
| OSError
| FileNotFoundError
| PermissionError
| ProcessLookupError.

(** [issubclass(e, OSError)] *)
Definition is_OSError (e : exn) : bool :=
  match e with
  | OSError | FileNotFoundError | PermissionError | ProcessLookupError => true
  | _ => false
  end.

(** [issubclass(e, FileNotFoundError)] *)
Definition is_FileNotFoundError (e : exn) : bool :=
  match e with
  | FileNotFoundError => true
  | _ => false
  end.

Inductive result (A : Type) : Type :=
| Ok (a : A)
| Raise (e : exn).
Arguments Ok {A} a.
Arguments Raise {A} e.

Definition rbind {A B} (r : result A) (k : A -> result B) : result B :=
  match r with
  | Ok a => k a
  | Raise e => Raise e
  end.

(** Truth value testing, [bool(v)]. *)
Definition float_is_zero (f : spec_float) : bool :=
  match f with
  | S754_zero _ => true
  | _ => false
  end.

Definition truthy (v : pyval) : bool :=
  match v with
  | PNone => false
  | PBool b => b
  | PInt z => negb (z =? 0)%Z
  | PFloat f => negb (float_is_zero f)
  | PStr s => negb (s =? EmptyString)
  | PList l => match l with [] => false | _ => true end
  | PDict d => match d with [] => false | _ => true end
  end.

(** [a or b] *)
Definition py_or (a b : pyval) : pyval := if truthy a then a else b.

(** Only the immutable values are hashable. *)
Definition hashable (v : pyval) : bool :=
  match v with
  | PList _ | PDict _ => false
  | _ => true
  end.

(** Exact comparison of an [int] with a [float]. *)
Definition float_eq_int (f : spec_float) (z : Z) : bool :=
  match f with
  | S754_zero _ => (z =? 0)%Z
  | S754_finite s m e =>
      let mag := Z.abs z in
      andb (Bool.eqb s (z <? 0)%Z)
           (if (0 <=? e)%Z then (Z.pos m * 2 ^ e =? mag)%Z
            else (Z.pos m =? mag * 2 ^ (- e))%Z)
  | _ => false
  end.

(** [a == b] for the hashable values; a [list] or a [dict] never equals one
    of those, and two containers are never compared by the script without a
    [hash] call that raises first. *)
Definition py_eq (a b : pyval) : bool :=
  match a, b with
  | PNone, PNone => true
  | PBool x, PBool y => Bool.eqb x y
  | PBool x, PInt y => (Z.b2z x =? y)%Z
  | PInt x, PBool y => (x =? Z.b2z y)%Z
  | PInt x, PInt y => (x =? y)%Z
  | PFloat x, PFloat y => SFeqb x y
  | PFloat x, PInt y => float_eq_int x y
  | PInt x, PFloat y => float_eq_int y x
  | PFloat x, PBool y => float_eq_int x (Z.b2z y)
  | PBool x, PFloat y => float_eq_int y (Z.b2z x)
  | PStr x, PStr y => (x =? y)
  | _, _ => false
  end.

(** *** Dictionaries *)

Definition dict := list (string * pyval).

Fixpoint lookup (d : dict) (key : string) : option pyval :=
  match d with
  | [] => None
  | (k, v) :: d' => if k =? key then Some v else lookup d' key
  end.

(** [d.get(key, default)] *)
Definition get_default (d : dict) (key : string) (default : pyval) : pyval :=
  match lookup d key with
  | Some v => v
  | None => default
  end.

(** [d.get(key)] *)
Definition get (d : dict) (key : string) : pyval := get_default d key PNone.

(** [v.get(key)] on an arbitrary value: only a [dict] has the method. *)
Definition py_get (v : pyval) (key : string) : result pyval :=
  match v with
  | PDict d => Ok (get d key)
  | _ => Raise AttributeError
  end.

(** [v.get(key, default)] on an arbitrary value. *)
Definition py_get_default (v : pyval) (key : string) (default : pyval)
  : result pyval :=
  match v with
  | PDict d => Ok (get_default d key default)
  | _ => Raise AttributeError
  end.

(** The keys of a dictionary, each once, in insertion order. *)
Fixpoint keys (d : dict) : list string :=
  match d with
  | [] => []
  | (k, _) :: d' =>
      k :: filter (fun k' => negb (k =? k')) (keys d')
  end.

Fixpoint chars (s : string) : list string :=
  match s with
  | EmptyString => []
  | String c s' => String c EmptyString :: chars s'
  end.

(** What a [for] loop (or a comprehension) iterates over: the items of a
    list, the keys of a dict, the characters of a string; anything else is
    not iterable.  The script calls [.get] on every item, so a key or a
    character makes it raise whatever its content. *)
Definition py_iter (v : pyval) : result (list pyval) :=
  match v with
  | PList l => Ok l
  | PDict d => Ok (map PStr (keys d))
  | PStr s => Ok (map PStr (chars s))
  | _ => Raise TypeError
  end.

(** Nesting height of a value, an upper bound on how deep any traversal of
    it can recurse. *)
Fixpoint height (v : pyval) : nat :=
  match v with
  | PList l => S (fold_right (fun x n => Nat.max (height x) n) 0 l)
  | PDict d => S (fold_right (fun kv n => Nat.max (height (snd kv)) n) 0 d)
  | _ => 0
  end.

End Py.
Export Py.

(* ================================================================== *)
(** ** ProcessInspector: [read_cmdline] *)

Module Inspector.

Definition byte : Set := Init.Byte.byte.

(** [content.split(b"\0")]: the segments between NUL bytes; there is always
    at least one segment. *)
Fixpoint split_nul (content : list byte) : list (list byte) :=
  match content with
  | [] => [[]]
  | b :: rest =>
      match b with
      | Init.Byte.x00 => [] :: split_nul rest
      | _ =>
          match split_nul rest with
          | seg :: segs => (b :: seg) :: segs
          | [] => [[b]]
          end
      end
  end.

Definition nonempty {A} (l : list A) : bool :=
  match l with [] => false | _ => true end.

(** [" ".join(parts)] *)
Definition join_space (parts : list string) : string := String.concat " " parts.

Section ReadCmdline.

(** What [open(f"/proc/{pid}/cmdline", "rb")] followed by [fh.read()]
    yields for a given [pid]: the bytes of the file, or the exception
    raised ([Procfs.proc_read] below spells the two calls out). *)
Variable proc_cmdline : pyval -> result (list byte).

(** [bytes.decode("utf-8", errors="replace")], which never raises. *)
Variable decode : list byte -> string.

(** Lines 39-49. *)
Definition read_cmdline (pid : pyval) : result (option string) :=
  match proc_cmdline pid with
  | Ok raw =>
      let content := split_nul raw in
      let parts := map decode (filter nonempty content) in
      Ok (if nonempty parts then Some (join_space parts) else None)
  | Raise e =>
      if is_FileNotFoundError e then Ok None
      else if is_OSError e then Ok None
      else Raise e
  end.

End ReadCmdline.

End Inspector.
Export Inspector.

(* ================================================================== *)
(** ** TreeWalker: [collect_windows] *)

Module Walker.

Definition of_option (o : option string) : pyval :=
  match o with
  | Some s => PStr s
  | None => PNone
  end.

(** The dictionary literal of lines 69-78. *)
Definition window_record
  (workspace output pid app_id wm_class title cmd marks : pyval) : pyval :=
  PDict [("workspace", workspace); ("output", output); ("pid", pid);
         ("app_id", app_id); ("wm_class", wm_class); ("title", title);
         ("cmd", cmd); ("marks", marks)].

Definition is_type (node_type : pyval) (kind : string) : bool :=
  py_eq node_type (PStr kind).

Section CollectWindows.

Variable proc_cmdline : pyval -> result (list byte).
Variable decode : list byte -> string.

(** Lines 66-79: the record appended for [node] when it is a window.  The
    list [windows] is the closure variable the Python code appends to. *)
Definition visit (d : dict) (node_type current_output current_workspace : pyval)
  (windows : list pyval) : result (list pyval) :=
  if truthy (get d "pid") && is_type node_type "con" then
    let window_props := py_or (get d "window_properties") (PDict []) in
    rbind (py_get window_props "class") (fun wm_class =>
    rbind (read_cmdline proc_cmdline decode (get d "pid")) (fun cmd =>
    Ok (windows ++
        [window_record current_workspace current_output (get d "pid")
           (get d "app_id") wm_class (get d "name") (of_option cmd)
           (py_or (get d "marks") (PList []))])))
  else Ok windows.

(** Lines 81-82: the children in order; the first one that does not
    return normally stops the loop. *)
Fixpoint each_child (step : pyval -> list pyval -> option (result (list pyval)))
  (children : list pyval) (windows : list pyval)
  : option (result (list pyval)) :=
  match children with
  | [] => Some (Ok windows)
  | child :: rest =>
      match step child windows with
      | Some (Ok windows') => each_child step rest windows'
      | stop => stop
      end
  end.

(** Lines 56-82.  [fuel] bounds the recursion depth; [None] means the
    bound was reached. *)
Fixpoint _walk (fuel : nat) (node output workspace : pyval)
  (windows : list pyval) {struct fuel} : option (result (list pyval)) :=
  match fuel with
  | O => None
  | S fuel' =>
      match node with
      | PDict d =>
          let node_type := get d "type" in
          let current_output :=
            if is_type node_type "output" then get d "name" else output in
          let current_workspace :=
            if is_type node_type "output" then workspace
            else if is_type node_type "workspace" then get d "name"
                 else workspace in
          match visit d node_type current_output current_workspace windows with
          | Raise e => Some (Raise e)
          | Ok windows1 =>
              match py_iter (get_default d "nodes" (PList [])) with
              | Raise e => Some (Raise e)
              | Ok children =>
                  each_child
                    (fun child acc =>
                       _walk fuel' child current_output current_workspace acc)
                    children windows1
              end
          end
      | _ => Some (Raise AttributeError)
      end
  end.

(** Lines 52-85.  The height of the tree bounds how deep [_walk] can
    recurse, so the bound is never reached (see [walk_fuel_enough]); the
    interpreter's own recursion limit is not part of the model. *)
Definition collect_windows (tree : pyval) : result (list pyval) :=
  match _walk (S (height tree)) tree PNone PNone [] with
  | Some r => r
  | None => Raise RecursionError
  end.

End CollectWindows.

End Walker.
Export Walker.


(* ================================================================== *)
(** ** The outside world: compositor, file system, standard output *)

Module World.

(** An f-string, kept as its literal and interpolated pieces so that no
    model of [str()] on arbitrary values is needed. *)
Inductive piece : Type :=
| Lit (s : string)
| Fmt (v : pyval).

Definition fstring := list piece.

(** What the script has done to the world so far. *)
Record world : Type := mkWorld {
  sent : list fstring;                      (* [swaymsg <command>] calls *)
  printed : list fstring;                   (* lines written by [print] *)
  files : list (string * result pyval)      (* path, [json.loads(read_text())] *)
}.

Definition empty_world : world := mkWorld [] [] [].

(** How the world answers.  The compositor's answers may depend on the
    commands it has received so far. *)
Record host : Type := mkHost {
  reply : list fstring -> string -> result pyval;  (* [swaymsg -t <type>] *)
  accepts : list fstring -> fstring -> bool;       (* exit status 0 ? *)
  proc_cmdline : pyval -> result (list byte);
  decode : list byte -> string;
  clock : spec_float;                              (* [time.time()] *)
  mkdir_parent : string -> result unit;
  write_text : string -> result unit
}.

(** Computations that act on the world and may raise. *)
Definition M (A : Type) : Type := world -> result A * world.

Definition ret {A} (a : A) : M A := fun w => (Ok a, w).

Definition raise {A} (e : exn) : M A := fun w => (Raise e, w).

Definition bind {A B} (m : M A) (k : A -> M B) : M B :=
  fun w =>
    match m w with
    | (Ok a, w') => k a w'
    | (Raise e, w') => (Raise e, w')
    end.

(** A computation that does not touch the world. *)
Definition lift {A} (r : result A) : M A := fun w => (r, w).

Declare Scope py_scope.
Delimit Scope py_scope with py.
Notation "x <- m ;; k" := (bind m (fun x => k))
  (at level 61, m at next level, right associativity) : py_scope.
Notation "m ;;; k" := (bind m (fun _ => k))
  (at level 61, right associativity) : py_scope.
Local Open Scope py_scope.

(** [for x in items: body(x)] *)
Fixpoint for_each {A} (items : list A) (body : A -> M unit) : M unit :=
  match items with
  | [] => ret tt
  | x :: rest => body x ;;; for_each rest body
  end.

Section Primitives.

Variable h : host.

(** Lines 28-31. *)
Definition swaymsg_json (message_type : string) : M pyval :=
  fun w => (reply h (sent w) message_type, w).

(** Lines 34-36: [check_call] raises when the exit status is not 0. *)
Definition swaymsg_cmd (command : fstring) : M unit :=
  fun w =>
    let w' := mkWorld (sent w ++ [command]) (printed w) (files w) in
    if accepts h (sent w) command then (Ok tt, w')
    else (Raise CalledProcessError, w').

Definition print (line : fstring) : M unit :=
  fun w => (Ok tt, mkWorld (sent w) (printed w ++ [line]) (files w)).

End Primitives.

Fixpoint file_at (fs : list (string * result pyval)) (path : string)
  : option (result pyval) :=
  match fs with
  | [] => None
  | (p, c) :: fs' => if p =? path then Some c else file_at fs' path
  end.

(** [path.exists()] *)
Definition path_exists (path : string) : M bool :=
  fun w => (Ok (match file_at (files w) path with Some _ => true | None => false end), w).

(** [json.loads(path.read_text())] *)
Definition load_json (path : string) : M pyval :=
  fun w => (match file_at (files w) path with
            | Some c => c
            | None => Raise FileNotFoundError
            end, w).

(** [path.write_text(json.dumps(payload, indent=2))]; reading the file back
    with [json.loads] gives [payload] again. *)
Definition dump_json (h : host) (path : string) (payload : pyval) : M unit :=
  fun w =>
    match write_text h path with
    | Ok _ => (Ok tt, mkWorld (sent w) (printed w) ((path, Ok payload) :: files w))
    | Raise e => (Raise e, w)
    end.

End World.
Export World.

(* ================================================================== *)
(** ** SnapshotBuilder: [save_state] *)

Module Builder.

Local Open Scope py_scope.

(** The dictionary literal of line 98. *)
Definition workspace_record (ws : pyval) : result pyval :=
  rbind (py_get ws "name") (fun name =>
  rbind (py_get ws "output") (fun output =>
  rbind (py_get ws "focused") (fun focused =>
  Ok (PDict [("name", name); ("output", output); ("focused", focused)])))).

(** The list comprehension of lines 97-100. *)
Fixpoint workspace_records (workspaces : list pyval) : result (list pyval) :=
  match workspaces with
  | [] => Ok []
  | ws :: rest =>
      rbind (workspace_record ws) (fun r =>
      rbind (workspace_records rest) (fun rs => Ok (r :: rs)))
  end.

(** Lines 95-102. *)
Definition payload_of (now : spec_float) (records windows : list pyval) : pyval :=
  PDict [("saved_at", PFloat now);
         ("workspaces", PList records);
         ("windows", PList windows)].

(** Lines 88-104. *)
Definition save_state (h : host) (path : string) : M unit :=
  tree <- swaymsg_json h "get_tree" ;;
  workspaces <- swaymsg_json h "get_workspaces" ;;
  windows <- lift (collect_windows (proc_cmdline h) (decode h) tree) ;;
  lift (mkdir_parent h path) ;;;
  items <- lift (py_iter workspaces) ;;
  records <- lift (workspace_records items) ;;
  dump_json h path (payload_of (clock h) records windows) ;;;
  print [Lit "Saved session to "; Lit path].

End Builder.
Export Builder.

(* ================================================================== *)
(** ** SessionRestorer: [restore_state] *)

Module Restorer.

Local Open Scope py_scope.

Definition dquote : string := String (ascii_of_nat 34) EmptyString.

(** [f'workspace "{name}"'] *)
Definition cmd_workspace (name : pyval) : fstring :=
  [Lit ("workspace " ++ dquote); Fmt name; Lit dquote].

(** [f'move workspace to output "{output}"'] *)
Definition cmd_move (output : pyval) : fstring :=
  [Lit ("move workspace to output " ++ dquote); Fmt output; Lit dquote].

(** [f'exec -- {cmd}'] *)
Definition cmd_exec (cmd : pyval) : fstring :=
  [Lit "exec -- "; Fmt cmd].

(** [f"Skipping workspace {ws_name}: output {output} not present"] *)
Definition msg_skipping (ws_name output : pyval) : fstring :=
  [Lit "Skipping workspace "; Fmt ws_name; Lit ": output "; Fmt output;
   Lit " not present"].

(** A dictionary with arbitrary hashable keys, in insertion order.  Storing
    under a key that is already present keeps the key and its position and
    replaces the value. *)
Definition table := list (pyval * pyval).

Fixpoint table_set (t : table) (key value : pyval) : table :=
  match t with
  | [] => [(key, value)]
  | (k, v) :: t' =>
      if py_eq k key then (k, value) :: t'
      else (k, v) :: table_set t' key value
  end.

(** [t[key] = value] *)
Definition table_store (t : table) (key value : pyval) : result table :=
  if hashable key then Ok (table_set t key value) else Raise TypeError.

(** The dict comprehension of line 113, one record after the other. *)
Fixpoint workspace_targets_from (records : list pyval) (t : table)
  : result table :=
  match records with
  | [] => Ok t
  | ws :: rest =>
      rbind (py_get ws "name") (fun name =>
      if truthy name then
        rbind (py_get ws "output") (fun output =>
        rbind (table_store t name output) (fun t' =>
        workspace_targets_from rest t'))
      else workspace_targets_from rest t)
  end.

Definition workspace_targets (data : pyval) : result table :=
  rbind (py_get_default data "workspaces" (PList [])) (fun wss =>
  rbind (py_iter wss) (fun records =>
  workspace_targets_from records [])).

(** A set of hashable values; only membership is ever asked of it. *)
Definition pyset := list pyval.

(** [x in s] *)
Definition set_mem (x : pyval) (s : pyset) : result bool :=
  if hashable x then Ok (existsb (py_eq x) s) else Raise TypeError.

(** The set comprehension of line 116. *)
Fixpoint output_names (outputs : list pyval) : result pyset :=
  match outputs with
  | [] => Ok []
  | out :: rest =>
      rbind (py_get out "name") (fun name =>
      if hashable name then
        rbind (output_names rest) (fun s => Ok (name :: s))
      else Raise TypeError)
  end.

Section Restore.

Variable h : host.

(** The body of the loop of lines 117-123. *)
Definition place_workspace (available_outputs : pyset)
  (target : pyval * pyval) : M unit :=
  let (ws_name, output) := target in
  missing <- lift (if truthy output
                   then rbind (set_mem output available_outputs)
                              (fun present => Ok (negb present))
                   else Ok false) ;;
  if missing then print (msg_skipping ws_name output)
  else
    swaymsg_cmd h (cmd_workspace ws_name) ;;;
    if truthy output then swaymsg_cmd h (cmd_move output) else ret tt.

(** Lines 113-123, restore phase 1. *)
Definition restore_workspaces (data : pyval) : M unit :=
  workspace_targets <- lift (workspace_targets data) ;;
  outputs <- swaymsg_json h "get_outputs" ;;
  available_outputs <- lift (rbind (py_iter outputs) output_names) ;;
  for_each workspace_targets (place_workspace available_outputs).

(** The body of the loop of lines 127-133. *)
Definition launch_window (win : pyval) : M unit :=
  cmd <- lift (py_get win "cmd") ;;
  ws <- lift (py_get win "workspace") ;;
  if negb (truthy cmd) || negb (truthy ws) then ret tt
  else
    swaymsg_cmd h (cmd_workspace ws) ;;;
    swaymsg_cmd h (cmd_exec cmd).

(** Lines 125-133, restore phase 2. *)
Definition launch_windows (data : pyval) : M unit :=
  windows <- lift (rbind (py_get_default data "windows" (PList [])) py_iter) ;;
  for_each windows launch_window.

(** Lines 107-135. *)
Definition restore_state (path : string) : M unit :=
  present <- path_exists path ;;
  if negb present then raise SystemExit
  else
    data <- load_json path ;;
    restore_workspaces data ;;;
    launch_windows data ;;;
    print [Lit "Restored session from "; Lit path].

End Restore.

End Restorer.
Export Restorer.

(* ================================================================== *)
(** ** Command line: [main] *)

Module Cli.

Local Open Scope py_scope.



End Cli.
Export Cli.

(* ================================================================== *)
(** ** Opening a file under [/proc]: line 42 *)

Module Procfs.

(** How the operating system refuses to open or to read a file.  [open]
    and [read] raise each of them as a subclass of [OSError]. *)
Inductive fault : Type :=
| NoSuchFile           (* ENOENT *)
| PermissionDenied     (* EACCES *)
| NoSuchProcess        (* ESRCH *)
| OtherFault.          (* any other errno *)

Definition os_error (f : fault) : exn :=
  match f with
  | NoSuchFile => FileNotFoundError
  | PermissionDenied => PermissionError
  | NoSuchProcess => ProcessLookupError
  | OtherFault => OSError
  end.

(** What the operating system answers when a file is opened and read. *)
Inductive answer : Type :=
| Bytes (raw : list byte)
| Fault (f : fault).

(** Does a path hold a NUL character? *)
Fixpoint has_nul (s : string) : bool :=
  match s with
  | EmptyString => false
  | String c s' => Ascii.eqb c Ascii.zero || has_nul s'
  end.

(** The decimal text of an integer, and the number of its digits. *)
Definition decimal (z : Z) : string := NilZero.string_of_int (Z.to_int z).

Definition digits (z : Z) : nat := String.length (decimal (Z.abs z)).

Section Open.

(** The text of a float, a list or a dict, which is not modelled. *)
Variable repr : pyval -> result string.

(** [sys.get_int_max_str_digits()]: the longest integer, in digits, that
    the interpreter converts to text; 0 when it has no such limit.  The
    default of CPython is 4300. *)
Variable int_max_str_digits : nat.

(** The files of the machine, by path. *)
Variable os : string -> answer.

(** [str(z)] for an [int]. *)
Definition str_of_int (z : Z) : result string :=
  if (int_max_str_digits =? 0)%nat || (digits z <=? int_max_str_digits)%nat
  then Ok (decimal z)
  else Raise ValueError.

(** [format(pid)], what the replacement field [{pid}] of line 42 expands
    to. *)
Definition format (v : pyval) : result string :=
  match v with
  | PNone => Ok "None"
  | PBool true => Ok "True"
  | PBool false => Ok "False"
  | PInt z => str_of_int z
  | PStr s => Ok s
  | other => repr other
  end.

(** [f"/proc/{pid}/cmdline"] *)
Definition cmdline_path (pid : pyval) : result string :=
  rbind (format pid) (fun text => Ok ("/proc/" ++ text ++ "/cmdline")%string).

(** [open(path, "rb")] followed by [fh.read()]: a path that holds a NUL
    character is refused with [ValueError] before the operating system is
    asked; what the operating system refuses is an [OSError]. *)
Definition open_read (path : string) : result (list byte) :=
  if has_nul path then Raise ValueError
  else match os path with
       | Bytes raw => Ok raw
       | Fault f => Raise (os_error f)
       end.

(** Line 42 and the [read] of line 43, for a given [pid]. *)
Definition proc_read (pid : pyval) : result (list byte) :=
  rbind (cmdline_path pid) open_read.

End Open.

End Procfs.
Export Procfs.

(* ================================================================== *)
(** ** The scene tree as the specification describes it *)

Module Scene.

(** The ordered children of a scene node: what its ["nodes"] entry lists. *)
Definition children (node : pyval) : list pyval :=
  match node with
  | PDict d =>
      match py_iter (get_default d "nodes" (PList [])) with
      | Ok l => l
      | Raise _ => []
      end
  | _ => []
  end.

(** A field of a node, null when the node has none. *)
Definition field (node : pyval) (key : string) : pyval :=
  match node with
  | PDict d => get d key
  | _ => PNone
  end.

Definition has_kind (node : pyval) (kind : string) : bool :=
  is_type (field node "type") kind.

(** The name of the nearest enclosing node of kind [kind], null when there
    is none; [ancestors] lists the path to the root, innermost first. *)
Fixpoint nearest (kind : string) (ancestors : list pyval) : pyval :=
  match ancestors with
  | [] => PNone
  | a :: up => if has_kind a kind then field a "name" else nearest kind up
  end.

(** Every node below [node] (itself included) in depth-first pre-order,
    each with its ancestors. *)
Fixpoint descendants (fuel : nat) (ancestors : list pyval) (node : pyval)
  : list (list pyval * pyval) :=
  match fuel with
  | O => []
  | S fuel' =>
      (ancestors, node)
        :: flat_map (descendants fuel' (node :: ancestors)) (children node)
  end.

Definition scene_nodes (tree : pyval) : list (list pyval * pyval) :=
  descendants (S (height tree)) [] tree.

(** The same set of nodes, as a relation: [occurs root ancestors node]. *)
Inductive occurs (root : pyval) : list pyval -> pyval -> Prop :=
| occurs_root : occurs root [] root
| occurs_child ancestors node child :
    occurs root ancestors node ->
    In child (children node) ->
    occurs root (node :: ancestors) child.

(** A node the walker emits a record for: kind [con] and a process
    identifier that is neither null nor zero. *)
Definition is_window (node : pyval) : bool :=
  truthy (field node "pid") && has_kind node "con".

Definition window_nodes (tree : pyval) : list (list pyval * pyval) :=
  filter (fun an => is_window (snd an)) (scene_nodes tree).

(** A leaf carrying a process identifier, as the specification counts
    them. *)
Definition is_leaf (node : pyval) : bool :=
  match children node with [] => true | _ => false end.

Definition is_null (v : pyval) : bool :=
  match v with PNone => true | _ => false end.

Definition leaves_with_pid (tree : pyval) : nat :=
  List.length (filter (fun an => is_leaf (snd an) && negb (is_null (field (snd an) "pid")))
                 (scene_nodes tree)).

Definition is_ok {A} (r : result A) : bool :=
  match r with Ok _ => true | Raise _ => false end.

Section Expected.

Variable proc_cmdline : pyval -> result (list byte).
Variable decode : list byte -> string.

Definition class_of (node : pyval) : pyval :=
  match py_or (field node "window_properties") (PDict []) with
  | PDict p => get p "class"
  | _ => PNone
  end.

Definition cmd_of (node : pyval) : pyval :=
  match read_cmdline proc_cmdline decode (field node "pid") with
  | Ok c => of_option c
  | Raise _ => PNone
  end.

(** The record of a window node found under [ancestors]. *)
Definition expected_record (an : list pyval * pyval) : pyval :=
  let (ancestors, node) := an in
  window_record (nearest "workspace" ancestors) (nearest "output" ancestors)
    (field node "pid") (field node "app_id") (class_of node)
    (field node "name") (cmd_of node)
    (py_or (field node "marks") (PList [])).

(** A node the walker gets through without an exception. *)
Definition node_ok (node : pyval) : bool :=
  match node with
  | PDict d =>
      (if is_window node
       then is_ok (py_get (py_or (get d "window_properties") (PDict [])) "class")
            && is_ok (read_cmdline proc_cmdline decode (get d "pid"))
       else true)
      && is_ok (py_iter (get_default d "nodes" (PList [])))
  | _ => false
  end.

Definition scene_ok (tree : pyval) : bool :=
  forallb (fun an => node_ok (snd an)) (scene_nodes tree).

(** What a run of the walker, or of its loop over children, started with
    [acc] has to satisfy with respect to the nodes it was started on. *)
Definition agrees (run : option (result (list pyval)))
  (nodes : list (list pyval * pyval)) (acc : list pyval) : Prop :=
  match run with
  | Some (Ok acc') =>
      forallb (fun an => node_ok (snd an)) nodes = true
      /\ acc' = acc ++ map expected_record
                        (filter (fun an => is_window (snd an)) nodes)
  | Some (Raise _) => forallb (fun an => node_ok (snd an)) nodes = false
  | None => True
  end.

End Expected.

(** The tree with everything removed that [collect_windows] never reads:
    at every node along ["nodes"], only the entries it looks up remain. *)
Definition read_keys : list string :=
  ["type"; "name"; "pid"; "window_properties"; "app_id"; "marks"].

Definition is_read_key (k : string) : bool := existsb (String.eqb k) read_keys.

Definition keep_read (on_nodes : pyval -> pyval)
  : list (string * pyval) -> list (string * pyval) :=
  fix keep (d : list (string * pyval)) : list (string * pyval) :=
    match d with
    | [] => []
    | (k, v) :: d' =>
        if k =? "nodes" then (k, on_nodes v) :: keep d'
        else if is_read_key k then (k, v) :: keep d'
        else keep d'
    end.

Fixpoint tiling_only (t : pyval) : pyval :=
  match t with
  | PDict d =>
      PDict (keep_read (fun v => match v with
                                 | PList l => PList (map tiling_only l)
                                 | _ => v
                                 end) d)
  | _ => t
  end.

End Scene.
Export Scene.

(* ================================================================== *)
(** ** Command lines as the specification describes them *)

Module Cmdline.

(** The arguments recorded in [/proc/<pid>/cmdline]: the non-empty
    NUL-separated fields. *)
Definition arguments (raw : list byte) : list (list byte) :=
  filter nonempty (split_nul raw).

End Cmdline.
Export Cmdline.

(* ================================================================== *)
(** ** Restoring, as the specification describes it *)

Module Plan.

(** The commands that reach the compositor when [plan] is issued in order
    and the first rejected command ends the sequence. *)
Fixpoint issued (h : host) (history plan : list fstring) : list fstring :=
  match plan with
  | [] => []
  | c :: rest =>
      c :: (if accepts h history c then issued h (history ++ [c]) rest else [])
  end.

Fixpoint all_accepted (h : host) (history plan : list fstring) : bool :=
  match plan with
  | [] => true
  | c :: rest => accepts h history c && all_accepted h (history ++ [c]) rest
  end.

Definition plan_result (h : host) (history plan : list fstring) : result unit :=
  if all_accepted h history plan then Ok tt else Raise CalledProcessError.

(** [m] issues [plan], no more and no less, and touches no file. *)
Definition exactly (h : host) (m : M unit) (plan : list fstring) : Prop :=
  forall w,
    fst (m w) = plan_result h (sent w) plan
    /\ sent (snd (m w)) = sent w ++ issued h (sent w) plan
    /\ files (snd (m w)) = files w.

(** In [m], a rejected command is the last one sent and its failure is
    what [m] raises. *)
Definition aborting (h : host) {A} (m : M A) : Prop :=
  forall w,
  exists new,
    sent (snd (m w)) = sent w ++ new
    /\ forall before c after,
        new = before ++ c :: after ->
        accepts h (sent w ++ before) c = false ->
        after = [] /\ fst (m w) = Raise CalledProcessError.

(** [m] issues a prefix of [plan], all of it when it returns normally. *)
Definition within (m : M unit) (plan : list fstring) : Prop :=
  forall w,
  exists new rest,
    sent (snd (m w)) = sent w ++ new
    /\ plan = new ++ rest
    /\ (is_ok (fst (m w)) = true -> rest = []).

(** The two record lists of a snapshot. *)
Definition workspaces_of (data : pyval) : result (list pyval) :=
  rbind (py_get_default data "workspaces" (PList [])) py_iter.

Definition windows_of (data : pyval) : result (list pyval) :=
  rbind (py_get_default data "windows" (PList [])) py_iter.

(** The names of the outputs a [get_outputs] reply lists. *)
Definition available_of (outputs : pyval) : result pyset :=
  rbind (py_iter outputs) output_names.

Definition named (r : pyval) : bool := truthy (field r "name").

Definition target_of (r : pyval) : pyval * pyval :=
  (field r "name", field r "output").

(** Phase 1 for one workspace: nothing when its output is recorded and not
    available, else the switch and, when an output is recorded, the move. *)
Definition placement (available : pyset) (target : pyval * pyval)
  : list fstring :=
  let (name, output) := target in
  if truthy output && negb (existsb (py_eq output) available) then []
  else cmd_workspace name :: (if truthy output then [cmd_move output] else []).

Definition placement_of_record (available : pyset) (r : pyval) : list fstring :=
  if named r then placement available (target_of r) else [].

(** Phase 2 for one window. *)
Definition relaunch (win : pyval) : list fstring :=
  if negb (truthy (field win "cmd")) || negb (truthy (field win "workspace"))
  then []
  else [cmd_workspace (field win "workspace"); cmd_exec (field win "cmd")].

(** The same two, read literally from the specification: a field counts as
    recorded when it is not null. *)
Definition placement_as_stated (available : pyset) (r : pyval) : list fstring :=
  let output := field r "output" in
  if negb (is_null output) && negb (existsb (py_eq output) available) then []
  else cmd_workspace (field r "name")
         :: (if negb (is_null output) then [cmd_move output] else []).

Definition relaunch_as_stated (win : pyval) : list fstring :=
  if is_null (field win "cmd") || is_null (field win "workspace") then []
  else [cmd_workspace (field win "workspace"); cmd_exec (field win "cmd")].

(** A workspace record restore can handle: a dictionary whose name and
    output can be hashed. *)
Definition record_ok (r : pyval) : bool :=
  match r with
  | PDict d => hashable (get d "name") && hashable (get d "output")
  | _ => false
  end.

Definition is_dict (v : pyval) : bool :=
  match v with PDict _ => true | _ => false end.

(** No two named records have equal names. *)
Fixpoint distinct_names (records : list pyval) : bool :=
  match records with
  | [] => true
  | r :: rest =>
      forallb (fun r' => negb (named r && named r'
                               && py_eq (field r "name") (field r' "name")))
              rest
      && distinct_names rest
  end.






End Plan.
Export Plan.

(* ================================================================== *)
(** ** Snapshots and assignments, as the specification describes them *)

Module Snapshot.

(** The WorkspaceRecord of a live workspace: name, output, focused flag. *)
Definition projected (ws : pyval) : pyval :=
  PDict [("name", field ws "name"); ("output", field ws "output");
         ("focused", field ws "focused")].

(** The persisted workspace sequence read literally from the
    specification: unnamed workspaces dropped. *)
Definition workspaces_as_stated (items : list pyval) : list pyval :=
  map projected (filter named items).

(** The workspace-to-output assignments of a workspace list: the name and
    the output of every named workspace that is on an output. *)
Definition captured (items : list pyval) : list (pyval * pyval) :=
  map target_of
      (filter (fun i => named i && truthy (field i "output")) items).

(** The assignments a command sequence makes: each move puts the workspace
    that was switched to last on the output it names. *)
Fixpoint placements (current : option pyval) (cmds : list fstring)
  : list (pyval * pyval) :=
  match cmds with
  | [] => []
  | [Lit l; Fmt v; Lit _] :: rest =>
      if l =? "workspace " ++ dquote then placements (Some v) rest
      else if l =? "move workspace to output " ++ dquote then
             match current with
             | Some name => (name, v) :: placements current rest
             | None => placements current rest
             end
           else placements current rest
  | _ :: rest => placements current rest
  end.

(** Where a workspace ends up after a sequence of assignments. *)
Definition assignment_after (ps : list (pyval * pyval)) (name : pyval)
  : option pyval :=
  fold_left (fun acc p => if py_eq (fst p) name then Some (snd p) else acc)
            ps None.

End Snapshot.
Export Snapshot.

(* ================================================================== *)
(** ** Four sentences of the specification, read literally *)

Module AsStated.

(** "The number of emitted WindowRecord equals the number of leaf nodes
    carrying a non-null process identifier." *)
Definition count_as_stated (proc_cmdline : pyval -> result (list byte))
  (decode : list byte -> string) (tree : pyval) : Prop :=
  forall windows,
    collect_windows proc_cmdline decode tree = Ok windows ->
    List.length windows = leaves_with_pid tree.

(** "Restore skips exactly the WorkspaceRecord entries whose recorded
    output is non-null and absent from the current output set; all others
    are processed." *)
Definition phase1_as_stated (h : host) (data : pyval) (w : world) : Prop :=
  forall records outputs available,
    workspaces_of data = Ok records ->
    reply h (sent w) "get_outputs" = Ok outputs ->
    available_of outputs = Ok available ->
    sent (snd (restore_workspaces h data w))
    = sent w ++ issued h (sent w)
                  (flat_map (placement_as_stated available) records).

(** "Restore skips exactly the WindowRecord entries with a null command or
    null workspace field." *)
Definition phase2_as_stated (h : host) (data : pyval) (w : world) : Prop :=
  forall wins,
    windows_of data = Ok wins ->
    sent (snd (launch_windows h data w))
    = sent w ++ issued h (sent w) (flat_map relaunch_as_stated wins).

(** "Projecting the workspace list into WorkspaceRecord values (name,
    output, focused flag, dropping unnamed workspaces)." *)
Definition saved_as_stated (h : host) (path : string) (w : world) : Prop :=
  forall workspaces items payload,
    reply h (sent w) "get_workspaces" = Ok workspaces ->
    py_iter workspaces = Ok items ->
    file_at (files (snd (save_state h path w))) path = Some (Ok payload) ->
    field payload "workspaces" = PList (workspaces_as_stated items).

End AsStated.
Export AsStated.

(* ================================================================== *)
(** ** Sample inputs *)

Module Sample.

Definition node (kind name : string) (kids : list pyval) : pyval :=
  PDict [("type", PStr kind); ("name", PStr name); ("nodes", PList kids)].

Definition window (pid : Z) (class : string) : pyval :=
  PDict [("type", PStr "con"); ("pid", PInt pid);
         ("window_properties", PDict [("class", PStr class)])].

(** The scenario of the specification: two outputs, one workspace and one
    window on each. *)
Definition two_outputs : pyval :=
  node "root" "root"
    [node "output" "DP-1" [node "workspace" "1" [window 100 "term"]];
     node "output" "HDMI-1" [node "workspace" "2" [window 200 "web"]]].

(** A decoder that is right on ASCII input. *)
Definition ascii_decode (raw : list byte) : string := string_of_list_byte raw.

Definition nul : list byte := [Init.Byte.x00].

(** A [/proc] in which process 100 runs [foot], process 200 runs
    [firefox --new-window], process 300 belongs to somebody else and no
    other process exists. *)
Definition proc (pid : pyval) : result (list byte) :=
  match pid with
  | PInt 100 => Ok (list_byte_of_string "foot" ++ nul)
  | PInt 200 =>
      Ok (list_byte_of_string "firefox" ++ nul
          ++ list_byte_of_string "--new-window" ++ nul)
  | PInt 300 => Raise PermissionError
  | _ => Raise FileNotFoundError
  end.

(** A window whose process identifier is present but zero. *)
Definition zero_pid : pyval :=
  node "root" "root"
    [node "output" "DP-1"
       [node "workspace" "1"
          [PDict [("type", PStr "con"); ("name", PStr "ghost"); ("pid", PInt 0)]]]].

(** A workspace node that carries a process identifier itself. *)
Definition pid_on_workspace : pyval :=
  node "root" "root"
    [node "output" "DP-1"
       [PDict [("type", PStr "workspace"); ("name", PStr "1");
               ("pid", PInt 100)]]].

(** A window that has a window below it. *)
Definition window_in_window : pyval :=
  node "root" "root"
    [node "output" "DP-1"
       [node "workspace" "1"
          [PDict [("type", PStr "con"); ("pid", PInt 100);
                  ("nodes", PList [window 200 "web"])]]]].

(** A workspace with one tiling and one floating window. *)
Definition with_floating : pyval :=
  node "root" "root"
    [node "output" "DP-1"
       [PDict [("type", PStr "workspace"); ("name", PStr "1");
               ("nodes", PList [window 100 "term"]);
               ("floating_nodes",
                PList [PDict [("type", PStr "floating_con");
                              ("pid", PInt 200);
                              ("nodes", PList [])]])]]].

(** A compositor with two outputs and a workspace on each, which accepts
    every command; the disk can be written. *)
Definition outputs_reply : pyval :=
  PList [PDict [("name", PStr "DP-1"); ("active", PBool true)];
         PDict [("name", PStr "HDMI-1"); ("active", PBool true)]].

Definition live_workspace (name output : string) (focused : bool) : pyval :=
  PDict [("num", PInt 1); ("name", PStr name); ("output", PStr output);
         ("focused", PBool focused)].

Definition workspaces_reply : pyval :=
  PList [live_workspace "1" "DP-1" true; live_workspace "2" "HDMI-1" false].

Definition now : spec_float := S754_finite false 27 26.

Definition answers (workspaces : pyval) (message_type : string) : result pyval :=
  if message_type =? "get_tree" then Ok two_outputs
  else if message_type =? "get_workspaces" then Ok workspaces
  else if message_type =? "get_outputs" then Ok outputs_reply
  else Raise CalledProcessError.

Definition desktop : host :=
  mkHost (fun _ => answers workspaces_reply) (fun _ _ => true)
         proc ascii_decode now (fun _ => Ok tt) (fun _ => Ok tt).

(** The same compositor, except that it rejects the command it receives
    after [n] others. *)
Definition flaky (n : nat) : host :=
  mkHost (fun _ => answers workspaces_reply)
         (fun history _ => negb (List.length history =? n)%nat)
         proc ascii_decode now (fun _ => Ok tt) (fun _ => Ok tt).

(** The same compositor, listing a workspace that has no name. *)
Definition desktop_with_unnamed : host :=
  mkHost (fun _ => answers
            (PList [live_workspace "1" "DP-1" true;
                    PDict [("output", PStr "HDMI-1"); ("focused", PBool false)]]))
         (fun _ _ => true)
         proc ascii_decode now (fun _ => Ok tt) (fun _ => Ok tt).

(** Snapshots. *)
Definition saved_workspace (name output : pyval) : pyval :=
  PDict [("name", name); ("output", output); ("focused", PBool false)].

Definition saved_window (workspace cmd : pyval) : pyval :=
  window_record workspace (PStr "DP-1") (PInt 100) PNone PNone PNone cmd
    (PList []).

Definition snapshot (workspaces windows : list pyval) : pyval :=
  payload_of now workspaces windows.

Definition two_workspaces : pyval :=
  snapshot [saved_workspace (PStr "1") (PStr "DP-1");
            saved_workspace (PStr "2") (PStr "HDMI-1")]
           [saved_window (PStr "1") (PStr "foot")].

Definition unnamed_workspace : pyval :=
  snapshot [saved_workspace PNone (PStr "DP-1")] [].

Definition empty_output : pyval :=
  snapshot [saved_workspace (PStr "1") (PStr EmptyString)] [].

Definition same_name_twice : pyval :=
  snapshot [saved_workspace (PStr "1") (PStr "DP-1");
            saved_workspace (PStr "2") (PStr "DP-1");
            saved_workspace (PStr "1") (PStr "HDMI-1")] [].

Definition lost_output : pyval :=
  snapshot [saved_workspace (PStr "9") (PStr "HDMI-2")] [].

(** A world in which [data] has been saved under [path]. *)
Definition on_disk (path : string) (data : pyval) : world :=
  mkWorld [] [] [(path, Ok data)].

Definition empty_command : pyval :=
  snapshot [] [saved_window (PStr "1") (PStr EmptyString)].

End Sample.

(* ================================================================== *)
(** ** Further notions used to describe the code *)

Module Describe.

(** A node the walker gets through whatever [/proc] holds, as long as
    reading it fails with operating-system errors only. *)
Definition shape_ok (node : pyval) : bool :=
  match node with
  | PDict d =>
      (if is_window node
       then is_ok (py_get (py_or (get d "window_properties") (PDict [])) "class")
       else true)
      && is_ok (py_iter (get_default d "nodes" (PList [])))
  | _ => false
  end.

(** The keys of a window record, in the order they are written. *)
Definition window_keys : list string :=
  ["workspace"; "output"; "pid"; "app_id"; "wm_class"; "title"; "cmd"; "marks"].

(** How the kernel lays out an argument vector in [/proc/<pid>/cmdline]:
    every argument followed by a NUL byte. *)
Definition cmdline_of (argv : list (list byte)) : list byte :=
  flat_map (fun arg => arg ++ [Init.Byte.x00]) argv.

(** An argument that is not empty and holds no NUL byte. *)
Definition plain (arg : list byte) : Prop :=
  arg <> [] /\ ~ In Init.Byte.x00 arg.

(** Phase 2 for the window found at a node of the saved tree. *)
Definition relaunch_of_node (proc_cmdline : pyval -> result (list byte))
  (decode : list byte -> string) (an : list pyval * pyval) : list fstring :=
  let cmd := cmd_of proc_cmdline decode (snd an) in
  let ws := nearest "workspace" (fst an) in
  if negb (truthy cmd) || negb (truthy ws) then []
  else [cmd_workspace ws; cmd_exec cmd].

(** The notice phase 1 prints for a workspace record, if any. *)
Definition notice_of_record (available : pyset) (r : pyval) : list fstring :=
  if named r
     && truthy (field r "output")
     && negb (existsb (py_eq (field r "output")) available)
  then [msg_skipping (field r "name") (field r "output")]
  else [].

(** Two workspace records, or two window records, that restore cannot tell
    apart. *)
Definition same_target (r r' : pyval) : Prop :=
  py_get r "name" = py_get r' "name"
  /\ py_get r "output" = py_get r' "output".

Definition same_launch (win win' : pyval) : Prop :=
  py_get win "cmd" = py_get win' "cmd"
  /\ py_get win "workspace" = py_get win' "workspace".

(** No two entries of a table have equal keys. *)
Fixpoint distinct_keys (t : table) : Prop :=
  match t with
  | [] => True
  | (k, _) :: t' =>
      (forall kv, In kv t' -> py_eq k (fst kv) = false) /\ distinct_keys t'
  end.

(** Computations that leave the files, or the compositor, alone. *)
Definition keeps_files {A} (m : M A) : Prop :=
  forall w, files (snd (m w)) = files w.

Definition keeps_sent {A} (m : M A) : Prop :=
  forall w, sent (snd (m w)) = sent w.

(** Every command [m] sends satisfies [P]. *)
Definition sends_only (P : fstring -> Prop) {A} (m : M A) : Prop :=
  forall w, exists new, sent (snd (m w)) = sent w ++ new /\ Forall P new.

(** A command phase 1 may send when [available] are the outputs present: a
    switch to a workspace, or a move to a recorded output that is present. *)
Definition placing (available : pyset) (c : fstring) : Prop :=
  (exists name, c = cmd_workspace name)
  \/ (exists output,
        c = cmd_move output
        /\ truthy output = true
        /\ existsb (py_eq output) available = true).

(** [m] returns normally and prints [lines], no more and no less. *)
Definition announces (m : M unit) (lines : list fstring) : Prop :=
  forall w, fst (m w) = Ok tt /\ printed (snd (m w)) = printed w ++ lines.

(** Where a key of the table of targets, and a value, come from. *)
Definition key_from (records : list pyval) (k : pyval) : Prop :=
  truthy k = true /\ hashable k = true
  /\ exists r, In r records /\ field r "name" = k.

Definition value_from (records : list pyval) (v : pyval) : Prop :=
  exists r, In r records /\ named r = true /\ field r "output" = v.

End Describe.
Export Describe.

(* ================================================================== *)
(** ** The content of a command-line record *)

Module Layout.

(** Any content of [/proc/<pid>/cmdline], cut at its NUL bytes: the fields
    that end with a NUL, in order, then the bytes after the last NUL.  For
    a running process the kernel writes every argument followed by a NUL,
    so that nothing follows the last one. *)
Definition record_of (fields : list (list byte)) (rest : list byte)
  : list byte :=
  flat_map (fun f => f ++ [Init.Byte.x00]) fields ++ rest.

Definition nul_free (f : list byte) : Prop := ~ In Init.Byte.x00 f.



(** An integer the interpreter converts to text. *)
Definition printable (int_max_str_digits : nat) (z : Z) : bool :=
  (int_max_str_digits =? 0)%nat || (digits z <=? int_max_str_digits)%nat.

(** A process identifier as the kernel gives them: such an integer. *)
Definition is_pid (int_max_str_digits : nat) (v : pyval) : bool :=
  match v with
  | PInt z => printable int_max_str_digits z
  | _ => false
  end.

(** The path of the record of process [z]. *)
Definition record_path (z : Z) : string := "/proc/" ++ decimal z ++ "/cmdline".

End Layout.
Export Layout.

(* ================================================================== *)
(** ** Records that share a name *)

Module Collapse.







End Collapse.
Export Collapse.

(* ================================================================== *)
(** ** More sample inputs *)

Module Machine.

(** The files of a machine on which process 100 runs [foot], process 200
    runs [firefox --new-window], process 300 belongs to somebody else and
    no other process exists. *)
Definition procfs (path : string) : answer :=
  if path =? "/proc/100/cmdline" then
    Bytes (list_byte_of_string "foot" ++ Sample.nul)
  else if path =? "/proc/200/cmdline" then
    Bytes (list_byte_of_string "firefox" ++ Sample.nul
           ++ list_byte_of_string "--new-window" ++ Sample.nul)
  else if path =? "/proc/300/cmdline" then Fault PermissionDenied
  else Fault NoSuchFile.

(** The same machine after every process has gone. *)
Definition procfs_later (path : string) : answer := Fault NoSuchFile.

(** A stand-in for the text of floats and containers, which no sample
    uses as a process identifier. *)
Definition no_repr (v : pyval) : result string := Ok "?".

(** The limit of CPython on the digits of an integer turned into text. *)
Definition max_digits : nat := 4300.

(** The reader of this machine. *)
Definition reader : pyval -> result (list byte) :=
  proc_read no_repr max_digits procfs.

(** A process identifier that is a string of one NUL character, as
    [json.loads] returns for a tree in which ["pid"] is the JSON string
    with the single escape for code point 0. *)
Definition nul_pid : pyval := PStr (String Ascii.zero EmptyString).

Definition nul_pid_tree : pyval :=
  Sample.node "root" "root"
    [Sample.node "output" "DP-1"
       [Sample.node "workspace" "1"
          [PDict [("type", PStr "con"); ("pid", nul_pid)]]]].

(** A tree in which a number stands where a node is expected. *)
Definition number_for_node : pyval :=
  Sample.node "root" "root"
    [Sample.node "output" "DP-1"
       [Sample.node "workspace" "1" [Sample.window 100 "term"; PInt 7]]].

End Machine.

(* ================================================================== *)
(** ** Facts about Python values *)

Module PyFacts.

Lemma py_eq_str (v : pyval) (s : string) :
  py_eq v (PStr s) = true -> v = PStr s.
Proof.
  destruct v; simpl; try discriminate.
  intros H. apply String.eqb_eq in H. now subst.
Qed.


Lemma is_type_exclusive (t : pyval) (k1 k2 : string) :
  k1 <> k2 -> is_type t k1 = true -> is_type t k2 = false.
Proof.
  unfold is_type. intros Hne H. apply py_eq_str in H. subst t. simpl.
  now apply String.eqb_neq.
Qed.

Lemma rbind_ok {A B} (r : result A) (k : A -> result B) (b : B) :
  rbind r k = Ok b -> exists a, r = Ok a /\ k a = Ok b.
Proof. destruct r; simpl; [eauto | discriminate]. Qed.

End PyFacts.
Import PyFacts.

(* ================================================================== *)
(** ** ProcessInspector *)

Example read_cmdline_running :
  read_cmdline Sample.proc Sample.ascii_decode (PInt 200)
  = Ok (Some "firefox --new-window").
Proof. reflexivity. Qed.

Example read_cmdline_no_such_process :
  read_cmdline Sample.proc Sample.ascii_decode (PInt 4242) = Ok None.
Proof. reflexivity. Qed.

(** Only operating-system faults are absorbed. *)
Example read_cmdline_other_exception :
  read_cmdline (fun _ => Raise ValueError) Sample.ascii_decode (PStr "x")
  = Raise ValueError.
Proof. reflexivity. Qed.

(* ================================================================== *)
(** ** TreeWalker *)

Module WalkerFacts.

Section Walk.

Variable proc_cmdline : pyval -> result (list byte).
Variable decode : list byte -> string.

#[local] Abbreviation walk := (_walk proc_cmdline decode).
#[local] Abbreviation ok := (fun an : list pyval * pyval => node_ok proc_cmdline decode (snd an)).
#[local] Abbreviation win := (fun an : list pyval * pyval => is_window (snd an)).
#[local] Abbreviation expected := (expected_record proc_cmdline decode).

#[local] Abbreviation agrees := (agrees proc_cmdline decode).

Lemma each_child_agrees (fuel : nat) (ancestors : list pyval) :
  (forall c acc,
      agrees (walk fuel c (nearest "output" ancestors)
                (nearest "workspace" ancestors) acc)
             (descendants fuel ancestors c) acc) ->
  forall cs acc,
    agrees (each_child
              (fun c a => walk fuel c (nearest "output" ancestors)
                            (nearest "workspace" ancestors) a) cs acc)
           (flat_map (descendants fuel ancestors) cs) acc.
Proof.
  intros IH cs. induction cs as [|c cs IHcs]; intros acc; simpl.
  - split; [reflexivity | now rewrite app_nil_r].
  - specialize (IH c acc). unfold agrees in IH.
    destruct (walk fuel c _ _ acc) as [[acc1|e]|]; simpl.
    + destruct IH as [Hok Hacc]. specialize (IHcs acc1).
      unfold agrees in *.
      destruct (each_child _ cs acc1) as [[acc2|e]|].
      * destruct IHcs as [Hok2 Hacc2]. split.
        -- rewrite forallb_app, Hok, Hok2. reflexivity.
        -- rewrite filter_app, map_app, app_assoc, <- Hacc. exact Hacc2.
      * rewrite forallb_app, IHcs. apply andb_false_r.
      * exact I.
    + rewrite forallb_app, IH. reflexivity.
    + exact I.
Qed.

Lemma context_output (d : dict) (ancestors : list pyval) :
  (if is_type (get d "type") "output" then get d "name"
   else nearest "output" ancestors)
  = nearest "output" (PDict d :: ancestors).
Proof. reflexivity. Qed.

Lemma context_workspace (d : dict) (ancestors : list pyval) :
  (if is_type (get d "type") "output" then nearest "workspace" ancestors
   else if is_type (get d "type") "workspace" then get d "name"
        else nearest "workspace" ancestors)
  = nearest "workspace" (PDict d :: ancestors).
Proof.
  simpl. unfold has_kind, field.
  destruct (is_type (get d "type") "output") eqn:E; [|reflexivity].
  rewrite (is_type_exclusive _ "output" "workspace"); [reflexivity| |exact E].
  discriminate.
Qed.

Lemma walk_agrees (fuel : nat) :
  forall node ancestors acc,
    agrees (walk fuel node (nearest "output" ancestors)
              (nearest "workspace" ancestors) acc)
           (descendants fuel ancestors node) acc.
Proof.
  induction fuel as [|fuel IH]; intros node ancestors acc; [exact I|].
  destruct node as [| | | | | |d]; try reflexivity.
  cbn [_walk]. rewrite context_output, context_workspace.
  cbn [descendants].
  pose proof (each_child_agrees fuel (PDict d :: ancestors)
                (fun c a => IH c (PDict d :: ancestors) a)) as Hloop.
  unfold visit, agrees.
  cbn [forallb filter snd].
  change (truthy (get d "pid") && is_type (get d "type") "con")
    with (is_window (PDict d)).
  unfold node_ok. cbn [children].
  destruct (is_window (PDict d)) eqn:Ew.
  - destruct (py_get (py_or (get d "window_properties") (PDict [])) "class")
      as [wm|e] eqn:Ewm; [|reflexivity].
    destruct (read_cmdline proc_cmdline decode (get d "pid"))
      as [cmd|e] eqn:Ecmd; [|reflexivity].
    cbn [rbind is_ok andb].
    destruct (py_iter (get_default d "nodes" (PList []))) as [cs|e];
      [|reflexivity].
    cbn [is_ok andb].
    specialize (Hloop cs (acc ++
      [window_record (nearest "workspace" (PDict d :: ancestors))
         (nearest "output" (PDict d :: ancestors)) (get d "pid")
         (get d "app_id") wm (get d "name") (of_option cmd)
         (py_or (get d "marks") (PList []))])).
    unfold agrees in Hloop.
    destruct (each_child _ cs _) as [[acc'|e]|]; [|exact Hloop|exact I].
    destruct Hloop as [Hok Hacc]. split; [exact Hok|].
    rewrite Hacc, <- app_assoc. cbn [map app]. do 2 f_equal.
    unfold expected_record, class_of, cmd_of, field.
    assert (Hkind : is_type (get d "type") "con" = true).
    { unfold is_window in Ew. apply andb_prop in Ew. exact (proj2 Ew). }
    assert (Hout : nearest "output" (PDict d :: ancestors)
                   = nearest "output" ancestors).
    { cbn [nearest]. unfold has_kind, field.
      now rewrite (is_type_exclusive (get d "type") "con" "output"
                     ltac:(discriminate) Hkind). }
    assert (Hws : nearest "workspace" (PDict d :: ancestors)
                  = nearest "workspace" ancestors).
    { cbn [nearest]. unfold has_kind, field.
      now rewrite (is_type_exclusive (get d "type") "con" "workspace"
                     ltac:(discriminate) Hkind). }
    rewrite Hout, Hws, Ecmd.
    destruct (py_or (get d "window_properties") (PDict [])); try discriminate.
    cbn in Ewm. now inversion Ewm.
  - cbn [andb].
    destruct (py_iter (get_default d "nodes" (PList []))) as [cs|e];
      [|reflexivity].
    cbn [is_ok].
    specialize (Hloop cs acc). unfold agrees in Hloop.
    destruct (each_child _ cs _) as [[acc'|e]|]; assumption.
Qed.

(** *** The recursion bound is never reached *)

Lemma fold_max_le {A} (f : A -> nat) (l : list A) (x : A) :
  In x l -> f x <= fold_right (fun y n => Nat.max (f y) n) 0 l.
Proof.
  induction l as [|y l IH]; simpl; [tauto|].
  intros [->|Hin]; [lia|]. specialize (IH Hin). lia.
Qed.

Lemma height_item (l : list pyval) (x : pyval) :
  In x l -> height x < height (PList l).
Proof.
  intros Hin. simpl. apply (fold_max_le height) in Hin. lia.
Qed.

Lemma lookup_In (d : dict) (k : string) (v : pyval) :
  lookup d k = Some v -> In (k, v) d.
Proof.
  induction d as [|[k' v'] d IH]; simpl; [discriminate|].
  destruct (k' =? k) eqn:E.
  - intros [= ->]. apply String.eqb_eq in E. subst. now left.
  - intros H. right. auto.
Qed.

Lemma height_value (d : dict) (k : string) (v : pyval) :
  lookup d k = Some v -> height v < height (PDict d).
Proof.
  intros H. apply lookup_In in H. simpl.
  apply (fold_max_le (fun kv : string * pyval => height (snd kv))) in H.
  simpl in H. lia.
Qed.

Lemma height_child (node child : pyval) :
  In child (children node) -> height child < height node.
Proof.
  destruct node as [| | | | | |d]; simpl; try tauto.
  unfold get_default.
  destruct (lookup d "nodes") as [v|] eqn:E; [|simpl; tauto].
  apply height_value in E.
  destruct v as [| | | |s|l|d']; simpl py_iter; cbn iota; try (simpl; tauto).
  - intros Hin. apply in_map_iff in Hin as (x & <- & _). simpl in *. lia.
  - intros Hin. apply height_item in Hin. simpl in *. lia.
  - intros Hin. apply in_map_iff in Hin as (x & <- & _). simpl in *. lia.
Qed.

Lemma each_child_returns (step : pyval -> list pyval -> option (result (list pyval)))
  (cs : list pyval) :
  (forall c acc, In c cs -> step c acc <> None) ->
  forall acc, each_child step cs acc <> None.
Proof.
  induction cs as [|c cs IH]; intros Hstep acc; simpl; [discriminate|].
  pose proof (Hstep c acc (or_introl eq_refl)) as Hc.
  destruct (step c acc) as [[acc'|e]|]; [|discriminate|congruence].
  apply IH. intros c' a Hin. apply Hstep. now right.
Qed.

Lemma walk_fuel_enough (fuel : nat) :
  forall node output workspace acc,
    height node < fuel -> walk fuel node output workspace acc <> None.
Proof.
  induction fuel as [|fuel IH]; intros node output workspace acc Hh; [lia|].
  destruct node as [| | | | | |d]; try discriminate.
  cbn [_walk].
  destruct (visit _ _ _ _ _ _ _) as [w1|e]; [|discriminate].
  destruct (py_iter (get_default d "nodes" (PList []))) as [cs|e] eqn:E;
    [|discriminate].
  apply each_child_returns. intros c a Hin. apply IH.
  assert (Hc : In c (children (PDict d))) by (simpl; now rewrite E).
  apply height_child in Hc. lia.
Qed.

(** More fuel than needed changes nothing. *)
Lemma each_child_ext (step step' : pyval -> list pyval -> option (result (list pyval)))
  (cs : list pyval) :
  (forall c acc r, step c acc = Some r -> step' c acc = Some r) ->
  forall acc r, each_child step cs acc = Some r -> each_child step' cs acc = Some r.
Proof.
  intros Hstep. induction cs as [|c cs IH]; intros acc r; simpl; [auto|].
  destruct (step c acc) as [[acc'|e]|] eqn:E; try discriminate.
  - rewrite (Hstep _ _ _ E). apply IH.
  - rewrite (Hstep _ _ _ E). auto.
Qed.

Lemma walk_fuel_mono (fuel : nat) :
  forall fuel' node output workspace acc r,
    fuel <= fuel' ->
    walk fuel node output workspace acc = Some r ->
    walk fuel' node output workspace acc = Some r.
Proof.
  induction fuel as [|fuel IH]; intros fuel' node output workspace acc r Hle;
    [discriminate|].
  destruct fuel' as [|fuel']; [lia|].
  destruct node as [| | | | | |d]; try (simpl; auto; fail).
  cbn [_walk].
  destruct (visit _ _ _ _ _ _ _) as [w1|e]; [|auto].
  destruct (py_iter (get_default d "nodes" (PList []))) as [cs|e]; [|auto].
  apply each_child_ext. intros c a r'. apply IH. lia.
Qed.

(** *** The enumeration of nodes is complete *)

Lemma descendants_child (fuel : nat) :
  forall ancestors0 node0 ancestors node child,
    In (ancestors, node) (descendants fuel ancestors0 node0) ->
    In child (children node) ->
    In (node :: ancestors, child) (descendants (S fuel) ancestors0 node0).
Proof.
  induction fuel as [|fuel IH]; intros a0 n0 a n c Hin Hc; [destruct Hin|].
  cbn [descendants] in Hin. destruct Hin as [[= <- <-]|Hin].
  - cbn [descendants]. right. apply in_flat_map. exists c. split; [exact Hc|].
    now left.
  - apply in_flat_map in Hin as (c0 & Hc0 & Hin).
    change (descendants (S (S fuel)) a0 n0)
      with ((a0, n0) :: flat_map (descendants (S fuel) (n0 :: a0)) (children n0)).
    right. apply in_flat_map. exists c0. split; [exact Hc0|].
    now apply IH.
Qed.

Lemma descendants_mono (fuel : nat) :
  forall fuel' ancestors node x,
    fuel <= fuel' ->
    In x (descendants fuel ancestors node) ->
    In x (descendants fuel' ancestors node).
Proof.
  induction fuel as [|fuel IH]; intros fuel' a n x Hle Hin; [destruct Hin|].
  destruct fuel' as [|fuel']; [lia|].
  cbn [descendants] in *. destruct Hin as [->|Hin]; [now left|].
  right. apply in_flat_map in Hin as (c & Hc & Hin).
  apply in_flat_map. exists c. split; [exact Hc|]. apply IH; [lia|exact Hin].
Qed.

Lemma occurs_depth (root : pyval) (ancestors : list pyval) (node : pyval) :
  occurs root ancestors node ->
  List.length ancestors + height node <= height root
  /\ In (ancestors, node) (descendants (S (List.length ancestors)) [] root).
Proof.
  induction 1 as [|a n c Hocc [IHh IHin] Hc].
  - split; [simpl; lia | now left].
  - apply height_child in Hc as Hlt. split; [simpl; lia|].
    now apply descendants_child.
Qed.

Lemma descendants_occur (root : pyval) (fuel : nat) :
  forall ancestors0 node0 x,
    occurs root ancestors0 node0 ->
    In x (descendants fuel ancestors0 node0) ->
    occurs root (fst x) (snd x).
Proof.
  induction fuel as [|fuel IH]; intros a0 n0 x Hocc Hin; [destruct Hin|].
  cbn [descendants] in Hin. destruct Hin as [<-|Hin]; [exact Hocc|].
  apply in_flat_map in Hin as (c & Hc & Hin).
  apply (IH (n0 :: a0) c); [|exact Hin]. now constructor.
Qed.

Lemma scene_nodes_occurs (root : pyval) (ancestors : list pyval) (node : pyval) :
  In (ancestors, node) (scene_nodes root) <-> occurs root ancestors node.
Proof.
  split.
  - intros Hin.
    apply (descendants_occur root (S (height root)) [] root (ancestors, node));
      [constructor | exact Hin].
  - intros Hocc. apply occurs_depth in Hocc as [Hh Hin].
    unfold scene_nodes. eapply descendants_mono; [|exact Hin]. lia.
Qed.

(** *** What [collect_windows] returns *)

Lemma collect_windows_spec (tree : pyval) (ws : list pyval) :
  collect_windows proc_cmdline decode tree = Ok ws
  <-> scene_ok proc_cmdline decode tree = true
      /\ ws = map expected (window_nodes tree).
Proof.
  unfold collect_windows, scene_ok, window_nodes, scene_nodes.
  pose proof (walk_agrees (S (height tree)) tree [] []) as H.
  pose proof (walk_fuel_enough (S (height tree)) tree PNone PNone []
                ltac:(lia)) as Hsome.
  cbn [nearest] in H. unfold agrees in H.
  destruct (walk (S (height tree)) tree PNone PNone []) as [[acc|e]|];
    [| |congruence].
  - destruct H as [Hok Hacc]. cbn [app] in Hacc. split.
    + intros [= <-]. now split.
    + intros [_ ->]. now rewrite Hacc.
  - split; [discriminate|]. intros [Hok _]. congruence.
Qed.

Lemma collect_windows_returns (tree : pyval) :
  scene_ok proc_cmdline decode tree = true ->
  collect_windows proc_cmdline decode tree = Ok (map expected (window_nodes tree)).
Proof. intros H. now apply collect_windows_spec. Qed.

(** *** Entries the walker never reads *)

Lemma lookup_keep_read (f : pyval -> pyval) (d : dict) (k : string) :
  In k read_keys -> lookup (keep_read f d) k = lookup d k.
Proof.
  intros Hk.
  assert (Hn : (k =? "nodes") = false).
  { simpl in Hk. repeat destruct Hk as [<-|Hk]; try reflexivity. destruct Hk. }
  assert (Hr : is_read_key k = true).
  { simpl in Hk. repeat destruct Hk as [<-|Hk]; try reflexivity. destruct Hk. }
  induction d as [|[k' v] d IH]; [reflexivity|].
  cbn [keep_read lookup]. fold (keep_read f).
  destruct (k' =? "nodes") eqn:En.
  - apply String.eqb_eq in En. subst k'. cbn [lookup].
    rewrite String.eqb_sym, Hn. exact IH.
  - destruct (is_read_key k') eqn:Er.
    + cbn [lookup]. destruct (k' =? k); [reflexivity | exact IH].
    + destruct (k' =? k) eqn:E; [|exact IH].
      apply String.eqb_eq in E. congruence.
Qed.

Lemma get_keep_read (f : pyval -> pyval) (d : dict) (k : string) :
  In k read_keys -> get (keep_read f d) k = get d k.
Proof. intros Hk. unfold get, get_default. now rewrite lookup_keep_read. Qed.

Lemma lookup_keep_nodes (f : pyval -> pyval) (d : dict) :
  lookup (keep_read f d) "nodes" = option_map f (lookup d "nodes").
Proof.
  induction d as [|[k' v] d IH]; [reflexivity|].
  cbn [keep_read lookup]. fold (keep_read f).
  destruct (k' =? "nodes") eqn:En.
  - cbn [lookup]. now rewrite En.
  - destruct (is_read_key k').
    + cbn [lookup]. now rewrite En.
    + exact IH.
Qed.

Lemma visit_keep_read (f : pyval -> pyval) (d : dict)
  (output workspace : pyval) (acc : list pyval) :
  visit proc_cmdline decode (keep_read f d) (get d "type") output workspace acc
  = visit proc_cmdline decode d (get d "type") output workspace acc.
Proof.
  unfold visit.
  rewrite !get_keep_read by (simpl; tauto). reflexivity.
Qed.

Lemma each_child_map (step : pyval -> list pyval -> option (result (list pyval)))
  (f : pyval -> pyval) (cs : list pyval) :
  (forall c acc, step (f c) acc = step c acc) ->
  forall acc, each_child step (map f cs) acc = each_child step cs acc.
Proof.
  intros Hf. induction cs as [|c cs IH]; intros acc; [reflexivity|].
  cbn [map each_child]. rewrite Hf.
  destruct (step c acc) as [[acc'|e]|]; auto.
Qed.

Lemma walk_tiling_only (fuel : nat) :
  forall node output workspace acc,
    walk fuel (tiling_only node) output workspace acc
    = walk fuel node output workspace acc.
Proof.
  induction fuel as [|fuel IH]; intros node output workspace acc; [reflexivity|].
  destruct node as [| | | | | |d]; try reflexivity.
  cbn [tiling_only _walk].
  set (f := fun v : pyval => match v with
                             | PList l => PList (map tiling_only l)
                             | _ => v
                             end).
  rewrite !(get_keep_read f d) by (simpl; tauto).
  rewrite visit_keep_read.
  destruct (visit _ _ _ _ _ _ _) as [w1|e]; [|reflexivity].
  unfold get_default. rewrite lookup_keep_nodes.
  destruct (lookup d "nodes") as [v|]; [|reflexivity].
  cbn [option_map]. destruct v; try reflexivity.
  cbn [f py_iter]. apply each_child_map. intros c a. apply IH.
Qed.

End Walk.

End WalkerFacts.
Import WalkerFacts.

(** C1: every record [collect_windows] emits belongs to one window node of
    the scene tree, in traversal order; its [output] field is the name of
    the nearest enclosing node of kind [output] on the path from the root
    and its [workspace] field the name of the nearest enclosing node of kind
    [workspace], each null when there is no such node.  The fields depend
    on the node's own ancestors only, so nothing comes from a sibling
    subtree. *)
Theorem records_carry_nearest_context
  (proc_cmdline : pyval -> result (list byte)) (decode : list byte -> string)
  (tree : pyval) :
  scene_ok proc_cmdline decode tree = true ->
  exists windows,
    collect_windows proc_cmdline decode tree = Ok windows /\
    Forall2 (fun an r =>
               occurs tree (fst an) (snd an) /\
               is_window (snd an) = true /\
               field r "output" = nearest "output" (fst an) /\
               field r "workspace" = nearest "workspace" (fst an) /\
               field r "pid" = field (snd an) "pid" /\
               field r "title" = field (snd an) "name")
            (window_nodes tree) windows.
Proof.
  intros Hok. eexists. split.
  - now apply collect_windows_returns.
  - unfold window_nodes.
    assert (Hall : Forall (fun an => occurs tree (fst an) (snd an))
                     (scene_nodes tree)).
    { apply Forall_forall. intros [a n] Hin. now apply scene_nodes_occurs. }
    induction Hall as [|[a n] nodes Hocc Hall IH]; cbn [filter map snd].
    + constructor.
    + destruct (is_window n) eqn:Ew; cbn [map]; [|exact IH].
      constructor; [|exact IH].
      cbn [fst snd expected_record window_record field get get_default lookup].
      repeat split; try assumption; reflexivity.
Qed.

Lemma records_carry_nearest_context_witness :
  scene_ok Sample.proc Sample.ascii_decode Sample.two_outputs = true /\
  exists windows,
    collect_windows Sample.proc Sample.ascii_decode Sample.two_outputs
    = Ok windows /\
    Forall2 (fun an r =>
               occurs Sample.two_outputs (fst an) (snd an) /\
               is_window (snd an) = true /\
               field r "output" = nearest "output" (fst an) /\
               field r "workspace" = nearest "workspace" (fst an) /\
               field r "pid" = field (snd an) "pid" /\
               field r "title" = field (snd an) "name")
            (window_nodes Sample.two_outputs) windows.
Proof.
  split; [reflexivity|].
  apply (records_carry_nearest_context Sample.proc Sample.ascii_decode
           Sample.two_outputs).
  reflexivity.
Defined.

(** The scenario of the specification, evaluated. *)
Example two_outputs_windows :
  collect_windows Sample.proc Sample.ascii_decode Sample.two_outputs
  = Ok [window_record (PStr "1") (PStr "DP-1") (PInt 100) PNone (PStr "term")
          PNone (PStr "foot") (PList []);
        window_record (PStr "2") (PStr "HDMI-1") (PInt 200) PNone (PStr "web")
          PNone (PStr "firefox --new-window") (PList [])].
Proof. reflexivity. Qed.

(** C2, as stated, fails: a leaf of kind [con] whose process identifier is
    0 carries a non-null identifier, and no record is emitted for it. *)
Lemma zero_pid_leaf_not_counted :
  ~ count_as_stated Sample.proc Sample.ascii_decode Sample.zero_pid.
Proof.
  intros H. specialize (H [] eq_refl). discriminate H.
Qed.

Example zero_pid_evaluated :
  collect_windows Sample.proc Sample.ascii_decode Sample.zero_pid = Ok []
  /\ leaves_with_pid Sample.zero_pid = 1.
Proof. split; reflexivity. Qed.

(** Neither is a leaf of another kind counted, while a window that is not
    a leaf is. *)
Example pid_on_workspace_evaluated :
  collect_windows Sample.proc Sample.ascii_decode Sample.pid_on_workspace
  = Ok []
  /\ leaves_with_pid Sample.pid_on_workspace = 1.
Proof. split; reflexivity. Qed.

Example window_in_window_evaluated :
  (exists r1 r2,
      collect_windows Sample.proc Sample.ascii_decode Sample.window_in_window
      = Ok [r1; r2])
  /\ leaves_with_pid Sample.window_in_window = 1.
Proof. split; [eexists; eexists|]; reflexivity. Qed.

(** C2, amended: the number of records equals the number of nodes of kind
    [con], at any depth below the root along ["nodes"], whose process
    identifier is neither null nor zero. *)
Theorem one_record_per_window_node
  (proc_cmdline : pyval -> result (list byte)) (decode : list byte -> string)
  (tree : pyval) :
  scene_ok proc_cmdline decode tree = true ->
  exists windows,
    collect_windows proc_cmdline decode tree = Ok windows /\
    List.length windows = List.length (window_nodes tree).
Proof.
  intros Hok. eexists. split.
  - now apply collect_windows_returns.
  - now rewrite length_map.
Qed.

Lemma one_record_per_window_node_witness :
  scene_ok Sample.proc Sample.ascii_decode Sample.two_outputs = true /\
  exists windows,
    collect_windows Sample.proc Sample.ascii_decode Sample.two_outputs
    = Ok windows /\
    List.length windows = List.length (window_nodes Sample.two_outputs).
Proof.
  split; [reflexivity|].
  apply (one_record_per_window_node Sample.proc Sample.ascii_decode
           Sample.two_outputs).
  reflexivity.
Defined.

(** C10: whatever a tree holds outside the entries the walker reads, a
    floating-window list in particular, has no effect on what
    [collect_windows] returns, at any node and any depth: the walker
    descends through ["nodes"] only. *)
Theorem only_tiling_children_are_visited
  (proc_cmdline : pyval -> result (list byte)) (decode : list byte -> string)
  (tree : pyval) :
  collect_windows proc_cmdline decode (tiling_only tree)
  = collect_windows proc_cmdline decode tree.
Proof.
  unfold collect_windows.
  pose proof (walk_fuel_enough proc_cmdline decode (S (height tree)) tree
                PNone PNone [] ltac:(lia)) as H1.
  pose proof (walk_fuel_enough proc_cmdline decode
                (S (height (tiling_only tree))) (tiling_only tree)
                PNone PNone [] ltac:(lia)) as H2.
  destruct (_walk proc_cmdline decode (S (height tree)) tree PNone PNone [])
    as [r1|] eqn:E1; [|congruence].
  destruct (_walk proc_cmdline decode (S (height (tiling_only tree)))
              (tiling_only tree) PNone PNone []) as [r2|] eqn:E2;
    [|congruence].
  rewrite walk_tiling_only in E2.
  set (m := Nat.max (S (height tree)) (S (height (tiling_only tree)))).
  apply (walk_fuel_mono proc_cmdline decode _ m) in E1; [|lia].
  apply (walk_fuel_mono proc_cmdline decode _ m) in E2; [|lia].
  congruence.
Qed.

(** A floating window with a process identifier yields no record. *)
Example floating_window_is_not_collected :
  collect_windows Sample.proc Sample.ascii_decode Sample.with_floating
  = Ok [window_record (PStr "1") (PStr "DP-1") (PInt 100) PNone (PStr "term")
          PNone (PStr "foot") (PList [])].
Proof. reflexivity. Qed.

(* ================================================================== *)
(** ** SessionRestorer *)

Module RestorerFacts.

Local Open Scope py_scope.

Section Runs.

Variable h : host.

Lemma all_accepted_issued (plan : list fstring) :
  forall history,
    all_accepted h history plan = true -> issued h history plan = plan.
Proof.
  induction plan as [|c plan IH]; intros history; simpl; [reflexivity|].
  intros H. apply andb_prop in H as [Hc Hrest]. rewrite Hc. f_equal. auto.
Qed.

Lemma all_accepted_app (p1 p2 : list fstring) :
  forall history,
    all_accepted h history (p1 ++ p2)
    = all_accepted h history p1 && all_accepted h (history ++ p1) p2.
Proof.
  induction p1 as [|c p1 IH]; intros history; simpl.
  - now rewrite app_nil_r.
  - rewrite IH, <- app_assoc, andb_assoc. reflexivity.
Qed.

Lemma issued_app (p1 p2 : list fstring) :
  forall history,
    issued h history (p1 ++ p2)
    = issued h history p1
      ++ (if all_accepted h history p1 then issued h (history ++ p1) p2 else []).
Proof.
  induction p1 as [|c p1 IH]; intros history; simpl.
  - now rewrite app_nil_r.
  - f_equal. destruct (accepts h history c); simpl; [|reflexivity].
    rewrite IH, <- app_assoc. reflexivity.
Qed.

(** *** Computations that issue exactly a plan *)

Lemma exactly_ext (m m' : M unit) (plan : list fstring) :
  (forall w, m w = m' w) -> exactly h m' plan -> exactly h m plan.
Proof. intros Heq H w. rewrite Heq. apply H. Qed.

Lemma exactly_run (m : M unit) (plan : list fstring) (w : world) :
  exactly h m plan ->
  fst (m w) = plan_result h (sent w) plan
  /\ sent (snd (m w)) = sent w ++ issued h (sent w) plan.
Proof. intros H. destruct (H w) as (Hr & Hs & _). now split. Qed.

Lemma exactly_ret : exactly h (ret tt) [].
Proof. intros w. simpl. now rewrite app_nil_r. Qed.

Lemma exactly_print (line : fstring) : exactly h (print line) [].
Proof. intros w. simpl. now rewrite app_nil_r. Qed.

Lemma exactly_cmd (c : fstring) : exactly h (swaymsg_cmd h c) [c].
Proof.
  intros w. unfold swaymsg_cmd, plan_result. simpl.
  destruct (accepts h (sent w) c); simpl; auto.
Qed.

Lemma exactly_seq (m1 m2 : M unit) (p1 p2 : list fstring) :
  exactly h m1 p1 -> exactly h m2 p2 -> exactly h (m1 ;;; m2) (p1 ++ p2).
Proof.
  intros H1 H2 w. unfold bind.
  destruct (H1 w) as (Hr & Hs & Hf).
  destruct (m1 w) as [r1 w1]. simpl in Hr, Hs, Hf.
  unfold plan_result in *. rewrite all_accepted_app, issued_app.
  destruct (all_accepted h (sent w) p1) eqn:E1; subst r1.
  - rewrite (all_accepted_issued _ _ E1) in *.
    destruct (H2 w1) as (Hr2 & Hs2 & Hf2). rewrite Hs in Hr2, Hs2.
    simpl. rewrite Hr2, Hs2, Hf2, Hf, app_assoc. auto.
  - simpl. rewrite app_nil_r. auto.
Qed.

Lemma exactly_for_each {A} (body : A -> M unit) (plan : A -> list fstring)
  (items : list A) :
  Forall (fun x => exactly h (body x) (plan x)) items ->
  exactly h (for_each items body) (flat_map plan items).
Proof.
  induction 1 as [|x items Hx _ IH]; simpl.
  - apply exactly_ret.
  - now apply exactly_seq.
Qed.

Lemma exactly_place (available : pyset) (name output : pyval) :
  hashable output = true ->
  exactly h (place_workspace h available (name, output))
            (placement available (name, output)).
Proof.
  intros Hh. unfold place_workspace, placement, set_mem. rewrite Hh.
  destruct (truthy output) eqn:Et; cbn [rbind andb].
  - destruct (existsb (py_eq output) available); cbn [negb].
    + change (exactly h (swaymsg_cmd h (cmd_workspace name) ;;;
                         swaymsg_cmd h (cmd_move output))
                ([cmd_workspace name] ++ [cmd_move output])).
      apply exactly_seq; apply exactly_cmd.
    + apply exactly_print.
  - change (exactly h (swaymsg_cmd h (cmd_workspace name) ;;; ret tt)
              ([cmd_workspace name] ++ [])).
    apply exactly_seq; [apply exactly_cmd | apply exactly_ret].
Qed.

Lemma exactly_launch (win : pyval) :
  is_dict win = true ->
  exactly h (launch_window h win) (relaunch win).
Proof.
  destruct win as [| | | | | |d]; try discriminate. intros _.
  unfold relaunch. cbn [field].
  apply (exactly_ext _
           (if negb (truthy (get d "cmd")) || negb (truthy (get d "workspace"))
            then ret tt
            else swaymsg_cmd h (cmd_workspace (get d "workspace")) ;;;
                 swaymsg_cmd h (cmd_exec (get d "cmd")))); [reflexivity|].
  destruct (negb (truthy (get d "cmd")) || negb (truthy (get d "workspace"))).
  - apply exactly_ret.
  - apply (exactly_seq _ _ [cmd_workspace (get d "workspace")]
             [cmd_exec (get d "cmd")]); apply exactly_cmd.
Qed.

(** *** Building the table of workspace targets *)

Lemma workspace_targets_of (data : pyval) (records : list pyval) :
  workspaces_of data = Ok records ->
  workspace_targets data = workspace_targets_from records [].
Proof.
  unfold workspaces_of, workspace_targets.
  destruct (py_get_default data "workspaces" (PList [])) as [wss|e];
    [|discriminate].
  cbn [rbind]. now intros ->.
Qed.

Lemma table_set_fresh (t : table) (k v : pyval) :
  (forall kv, In kv t -> py_eq (fst kv) k = false) ->
  table_set t k v = t ++ [(k, v)].
Proof.
  induction t as [|[k' v'] t IH]; intros Hfresh; [reflexivity|].
  pose proof (Hfresh (k', v') (or_introl eq_refl)) as Hk. cbn [fst] in Hk.
  cbn [table_set]. rewrite Hk. cbn [app]. f_equal. apply IH. intros kv Hin. apply Hfresh. now right.
Qed.

Lemma record_ok_dict (r : pyval) :
  record_ok r = true ->
  exists d, r = PDict d
            /\ hashable (get d "name") = true
            /\ hashable (get d "output") = true.
Proof.
  destruct r as [| | | | | |d]; try discriminate. simpl.
  intros H. apply andb_prop in H as [Hn Ho]. eauto.
Qed.

Lemma targets_of_distinct (records : list pyval) :
  forall t,
    forallb record_ok records = true ->
    distinct_names records = true ->
    (forall kv r, In kv t -> In r records -> named r = true ->
                  py_eq (fst kv) (field r "name") = false) ->
    workspace_targets_from records t
    = Ok (t ++ map target_of (filter named records)).
Proof.
  induction records as [|r rest IH]; intros t Hok Hdist Hfresh.
  - simpl. now rewrite app_nil_r.
  - cbn [forallb] in Hok. apply andb_prop in Hok as [Hr Hrest].
    cbn [distinct_names] in Hdist. apply andb_prop in Hdist as [Hhead Hdist].
    destruct (record_ok_dict r Hr) as (d & -> & Hn & Ho).
    cbn [workspace_targets_from py_get rbind filter].
    change (named (PDict d)) with (truthy (get d "name")).
    destruct (truthy (get d "name")) eqn:Et.
    + unfold table_store. rewrite Hn. cbn [rbind].
      rewrite table_set_fresh.
      * rewrite IH; [| exact Hrest | exact Hdist |].
        -- cbn [map]. now rewrite <- app_assoc.
        -- intros kv r' Hin Hin' Hnamed.
           apply in_app_or in Hin as [Hin|[<-|[]]].
           ++ apply (Hfresh kv r'); [exact Hin | now right | exact Hnamed].
           ++ rewrite forallb_forall in Hhead. specialize (Hhead r' Hin').
              change (named (PDict d)) with (truthy (get d "name")) in Hhead.
              rewrite Et, Hnamed in Hhead. cbn [andb] in Hhead.
              now apply negb_true_iff in Hhead.
      * intros kv Hin.
        apply (Hfresh kv (PDict d)); [exact Hin | now left | exact Et].
    + apply IH; [exact Hrest | exact Hdist |].
      intros kv r' Hin Hin'. apply Hfresh; [exact Hin | now right].
Qed.

Lemma placement_of_targets (available : pyset) (records : list pyval) :
  flat_map (placement available) (map target_of (filter named records))
  = flat_map (placement_of_record available) records.
Proof.
  induction records as [|r rest IH]; [reflexivity|].
  cbn [filter flat_map]. unfold placement_of_record at 1.
  destruct (named r); cbn [map flat_map app]; now rewrite IH.
Qed.

(** *** The two phases *)

Lemma restore_workspaces_run (data outputs : pyval) (t : table)
  (available : pyset) (w : world) :
  workspace_targets data = Ok t ->
  reply h (sent w) "get_outputs" = Ok outputs ->
  available_of outputs = Ok available ->
  restore_workspaces h data w = for_each t (place_workspace h available) w.
Proof.
  intros Ht Hr Ha. unfold restore_workspaces, bind, lift, swaymsg_json.
  rewrite Ht, Hr. unfold available_of in Ha. now rewrite Ha.
Qed.

Lemma launch_windows_run (data : pyval) (wins : list pyval) (w : world) :
  windows_of data = Ok wins ->
  launch_windows h data w = for_each wins (launch_window h) w.
Proof.
  intros Hw. unfold launch_windows, bind, lift.
  unfold windows_of in Hw. now rewrite Hw.
Qed.

(** *** A rejected command ends everything *)

Lemma aborting_quiet {A} (m : M A) :
  (forall w, sent (snd (m w)) = sent w) -> aborting h m.
Proof.
  intros Hq w. exists []. split; [now rewrite Hq, app_nil_r|].
  intros before c after Heq. now destruct before.
Qed.

Lemma aborting_ret {A} (a : A) : aborting h (ret a).
Proof. now apply aborting_quiet. Qed.

Lemma aborting_raise {A} (e : exn) : aborting h (@raise A e).
Proof. now apply aborting_quiet. Qed.

Lemma aborting_lift {A} (r : result A) : aborting h (lift r).
Proof. now apply aborting_quiet. Qed.

Lemma aborting_print (line : fstring) : aborting h (print line).
Proof. now apply aborting_quiet. Qed.

Lemma aborting_json (message_type : string) :
  aborting h (swaymsg_json h message_type).
Proof. now apply aborting_quiet. Qed.

Lemma aborting_path_exists (path : string) : aborting h (path_exists path).
Proof. now apply aborting_quiet. Qed.

Lemma aborting_load_json (path : string) : aborting h (load_json path).
Proof. now apply aborting_quiet. Qed.

Lemma aborting_cmd (c : fstring) : aborting h (swaymsg_cmd h c).
Proof.
  intros w. exists [c]. unfold swaymsg_cmd. split.
  - now destruct (accepts h (sent w) c).
  - intros before c' after Heq Hrej.
    destruct before as [|b before].
    + injection Heq as <- <-. rewrite app_nil_r in Hrej. now rewrite Hrej.
    + injection Heq as _ Heq. now destruct before.
Qed.

Lemma aborting_bind {A B} (m : M A) (k : A -> M B) :
  aborting h m -> (forall a, aborting h (k a)) -> aborting h (bind m k).
Proof.
  intros Hm Hk w. unfold bind.
  destruct (Hm w) as (new1 & Hs1 & Hab1).
  destruct (m w) as [[a|e] w1]; cbn [fst snd] in *.
  - destruct (Hk a w1) as (new2 & Hs2 & Hab2).
    exists (new1 ++ new2). split; [now rewrite Hs2, Hs1, app_assoc|].
    intros before c after Heq Hrej.
    apply app_eq_app in Heq as [l [[H1 H2]|[H1 H2]]].
    + destruct l as [|c' l].
      * rewrite app_nil_r in H1. subst new1. cbn [app] in H2.
        apply (Hab2 [] c after); [now rewrite H2|].
        now rewrite app_nil_r, Hs1.
      * injection H2 as <- H2.
        destruct (Hab1 before c l H1 Hrej) as [_ Habs]. discriminate.
    + subst before.
      apply (Hab2 l c after H2). now rewrite Hs1, <- app_assoc.
  - exists new1. split; [exact Hs1|].
    intros before c after Heq Hrej.
    destruct (Hab1 before c after Heq Hrej) as [Ha He].
    split; [exact Ha|]. now injection He as ->.
Qed.

Lemma aborting_for_each {A} (body : A -> M unit) (items : list A) :
  (forall x, aborting h (body x)) -> aborting h (for_each items body).
Proof.
  intros Hbody. induction items as [|x items IH]; cbn [for_each].
  - apply aborting_ret.
  - apply aborting_bind; [apply Hbody | intros _; exact IH].
Qed.

Lemma aborting_place (available : pyset) (target : pyval * pyval) :
  aborting h (place_workspace h available target).
Proof.
  destruct target as [name output]. unfold place_workspace.
  apply aborting_bind; [apply aborting_lift|]. intros missing.
  destruct missing; [apply aborting_print|].
  apply aborting_bind; [apply aborting_cmd|]. intros _.
  destruct (truthy output); [apply aborting_cmd | apply aborting_ret].
Qed.

Lemma aborting_launch (win : pyval) : aborting h (launch_window h win).
Proof.
  unfold launch_window.
  apply aborting_bind; [apply aborting_lift|]. intros cmd.
  apply aborting_bind; [apply aborting_lift|]. intros ws.
  destruct (negb (truthy cmd) || negb (truthy ws)); [apply aborting_ret|].
  apply aborting_bind; [apply aborting_cmd|]. intros _. apply aborting_cmd.
Qed.

Lemma aborting_restore_state (path : string) :
  aborting h (restore_state h path).
Proof.
  unfold restore_state.
  apply aborting_bind; [apply aborting_path_exists|]. intros present.
  destruct (negb present); [apply aborting_raise|].
  apply aborting_bind; [apply aborting_load_json|]. intros data.
  apply aborting_bind.
  - unfold restore_workspaces.
    apply aborting_bind; [apply aborting_lift|]. intros targets.
    apply aborting_bind; [apply aborting_json|]. intros outputs.
    apply aborting_bind; [apply aborting_lift|]. intros available.
    apply aborting_for_each. intros target. apply aborting_place.
  - intros _. apply aborting_bind.
    + unfold launch_windows.
      apply aborting_bind; [apply aborting_lift|]. intros windows.
      apply aborting_for_each. intros win. apply aborting_launch.
    + intros _. apply aborting_print.
Qed.

(** *** Computations that issue a prefix of a plan *)

Lemma within_ext (m m' : M unit) (plan : list fstring) :
  (forall w, m w = m' w) -> within m' plan -> within m plan.
Proof. intros Heq H w. rewrite Heq. apply H. Qed.

Lemma within_quiet (m : M unit) :
  (forall w, sent (snd (m w)) = sent w) -> within m [].
Proof.
  intros Hq w. exists [], []. rewrite Hq, app_nil_r. auto.
Qed.

Lemma within_raise (e : exn) (plan : list fstring) : within (raise e) plan.
Proof.
  intros w. exists [], plan. cbn. rewrite app_nil_r.
  repeat split. discriminate.
Qed.

Lemma within_cmd (c : fstring) : within (swaymsg_cmd h c) [c].
Proof.
  intros w. exists [c], []. unfold swaymsg_cmd.
  destruct (accepts h (sent w) c); cbn; auto.
Qed.

Lemma within_seq (m1 m2 : M unit) (p1 p2 : list fstring) :
  within m1 p1 -> within m2 p2 -> within (m1 ;;; m2) (p1 ++ p2).
Proof.
  intros H1 H2 w. unfold bind.
  destruct (H1 w) as (new1 & rest1 & Hs1 & Hp1 & Hok1).
  destruct (m1 w) as [[[]|e] w1]; cbn [fst snd is_ok] in *.
  - rewrite (Hok1 eq_refl), app_nil_r in Hp1. subst new1.
    destruct (H2 w1) as (new2 & rest2 & Hs2 & Hp2 & Hok2).
    exists (p1 ++ new2), rest2. rewrite Hs2, Hs1, Hp2, !app_assoc. auto.
  - exists new1, (rest1 ++ p2). rewrite Hp1, app_assoc.
    repeat split; [exact Hs1|discriminate].
Qed.

Lemma within_for_each {A} (body : A -> M unit) (plan : A -> list fstring)
  (items : list A) :
  (forall x, within (body x) (plan x)) ->
  within (for_each items body) (flat_map plan items).
Proof.
  intros Hbody. induction items as [|x items IH]; cbn [for_each flat_map].
  - now apply within_quiet.
  - now apply within_seq.
Qed.

Lemma issued_prefix (plan : list fstring) :
  forall history, exists rest, plan = issued h history plan ++ rest.
Proof.
  induction plan as [|c plan IH]; intros history; cbn [issued].
  - now exists [].
  - destruct (accepts h history c).
    + destruct (IH (history ++ [c])) as [rest Hrest].
      exists rest. cbn [app]. now f_equal.
    + now exists plan.
Qed.

Lemma within_exactly (m : M unit) (plan : list fstring) :
  exactly h m plan -> within m plan.
Proof.
  intros H w. destruct (H w) as (Hr & Hs & _).
  unfold plan_result in Hr.
  destruct (all_accepted h (sent w) plan) eqn:E.
  - exists plan, []. rewrite Hs, (all_accepted_issued _ _ E), app_nil_r. auto.
  - destruct (issued_prefix plan (sent w)) as [rest Hrest].
    exists (issued h (sent w) plan), rest. rewrite Hr.
    repeat split; [exact Hs | exact Hrest | discriminate].
Qed.

Lemma within_place (available : pyset) (target : pyval * pyval) :
  within (place_workspace h available target) (placement available target).
Proof.
  destruct target as [name output].
  destruct (hashable output) eqn:Eh.
  - now apply within_exactly, exactly_place.
  - unfold place_workspace, placement, set_mem. rewrite Eh.
    destruct (truthy output) eqn:Et; cbn [rbind andb].
    + apply (within_ext _ (raise TypeError)); [reflexivity|].
      apply within_raise.
    + apply (within_ext _ (swaymsg_cmd h (cmd_workspace name) ;;; ret tt));
        [reflexivity|].
      apply (within_seq _ _ [cmd_workspace name] []); [apply within_cmd|].
      now apply within_quiet.
Qed.

(** *** Records that share a name *)










Lemma plan_never_starts_with_move (available : pyset) (t : table)
  (o : pyval) (c : list fstring) :
  flat_map (placement available) t <> cmd_move o :: c.
Proof.
  induction t as [|[n o'] t IH]; [discriminate|].
  cbn [flat_map]. unfold placement at 1.
  destruct (truthy o' && negb (existsb (py_eq o') available)); [exact IH|].
  cbn [app]. unfold cmd_workspace, cmd_move. intros H. inversion H.
Qed.

Lemma plan_switch_then_move (available : pyset) (t : table) :
  forall a n o c,
    flat_map (placement available) t
    = a ++ cmd_workspace n :: cmd_move o :: c ->
    In (n, o) t.
Proof.
  induction t as [|[n' o'] t IH]; intros a n o c Heq.
  - now destruct a.
  - cbn [flat_map] in Heq. unfold placement at 1 in Heq.
    destruct (truthy o' && negb (existsb (py_eq o') available)).
    { right. now apply (IH a n o c). }
    destruct a as [|x a]; cbn [app] in Heq.
    + injection Heq as Hn Heq.
      destruct (truthy o').
      * cbn [app] in Heq. injection Heq as Ho _.
        left. unfold cmd_workspace in Hn. unfold cmd_move in Ho.
        now inversion Hn; inversion Ho.
      * cbn [app] in Heq. now apply plan_never_starts_with_move in Heq.
    + injection Heq as _ Heq.
      destruct (truthy o').
      * cbn [app] in Heq. destruct a as [|y a]; cbn [app] in Heq.
        -- injection Heq as Habs _. unfold cmd_move, cmd_workspace in Habs.
           inversion Habs.
        -- injection Heq as _ Heq. right. now apply (IH a n o c).
      * right. now apply (IH a n o c).
Qed.

Lemma restore_workspaces_cases (data : pyval) (w : world) :
  sent (snd (restore_workspaces h data w)) = sent w
  \/ exists t available,
       workspace_targets data = Ok t
       /\ restore_workspaces h data w
          = for_each t (place_workspace h available) w.
Proof.
  unfold restore_workspaces, bind, lift, swaymsg_json.
  destruct (workspace_targets data) as [t|e]; [|now left].
  destruct (reply h (sent w) "get_outputs") as [outputs|e]; [|now left].
  destruct (rbind (py_iter outputs) output_names) as [available|e];
    [|now left].
  right. now exists t, available.
Qed.

Lemma workspace_targets_records (data : pyval) (t : table) :
  workspace_targets data = Ok t ->
  exists records,
    workspaces_of data = Ok records
    /\ workspace_targets_from records [] = Ok t.
Proof.
  unfold workspace_targets, workspaces_of.
  destruct (py_get_default data "workspaces" (PList [])) as [wss|e];
    [|discriminate].
  cbn [rbind]. destruct (py_iter wss) as [records|e]; [|discriminate].
  cbn [rbind]. eauto.
Qed.

End Runs.

End RestorerFacts.
Import RestorerFacts.

(** C5: when the compositor rejects a command during a restore, that
    command is the last one the restore sends, in either phase, and the
    restore ends by raising the failure ([CalledProcessError]) to its
    caller. *)
Theorem rejected_command_aborts_restore
  (h : host) (path : string) (w : world) (before after : list fstring)
  (c : fstring) :
  sent (snd (restore_state h path w)) = sent w ++ before ++ c :: after ->
  accepts h (sent w ++ before) c = false ->
  after = [] /\ fst (restore_state h path w) = Raise CalledProcessError.
Proof.
  intros Hsent Hrej.
  destruct (aborting_restore_state h path w) as (new & Hs & Hab).
  apply (Hab before c after); [|exact Hrej].
  rewrite Hs in Hsent. now apply app_inv_head in Hsent.
Qed.

(** C3, as stated, fails: a workspace record without a name is not
    processed, although its output is available. *)
Lemma unnamed_workspace_is_dropped :
  ~ phase1_as_stated Sample.desktop Sample.unnamed_workspace empty_world.
Proof.
  intros H.
  specialize (H [Sample.saved_workspace PNone (PStr "DP-1")]
                Sample.outputs_reply [PStr "DP-1"; PStr "HDMI-1"]
                eq_refl eq_refl eq_refl).
  discriminate H.
Qed.

Example unnamed_workspace_evaluated :
  restore_workspaces Sample.desktop Sample.unnamed_workspace empty_world
  = (Ok tt, empty_world)
  /\ flat_map (placement_as_stated [PStr "DP-1"; PStr "HDMI-1"])
       [Sample.saved_workspace PNone (PStr "DP-1")]
     = [cmd_workspace PNone; cmd_move (PStr "DP-1")].
Proof. split; reflexivity. Qed.

(** A recorded output that is the empty string is not null, and is not
    among the available outputs; the record is processed all the same,
    without a move. *)
Example empty_output_is_not_skipped :
  sent (snd (restore_workspaces Sample.desktop Sample.empty_output empty_world))
  = [cmd_workspace (PStr "1")].
Proof. reflexivity. Qed.

(** The scenario of the specification: the only workspace names an output
    that is gone; no command is issued, a notice is printed, nothing is
    raised. *)
Example lost_output_is_skipped :
  restore_workspaces Sample.desktop Sample.lost_output empty_world
  = (Ok tt, mkWorld [] [msg_skipping (PStr "9") (PStr "HDMI-2")] []).
Proof. reflexivity. Qed.

(** C3, amended: records with a null or empty name are ignored; when the
    named records have distinct names, exactly those whose recorded output
    is non-empty and not among the available outputs are skipped, and every
    other one is processed in snapshot order by a switch to the workspace
    followed, when its output is non-empty, by a move to that output.  The
    sequence ends with the first command the compositor rejects. *)
Theorem workspaces_are_placed_in_order
  (h : host) (data : pyval) (records : list pyval) (outputs : pyval)
  (available : pyset) (w : world) :
  workspaces_of data = Ok records ->
  forallb record_ok records = true ->
  distinct_names records = true ->
  reply h (sent w) "get_outputs" = Ok outputs ->
  available_of outputs = Ok available ->
  let plan := flat_map (placement_of_record available) records in
  fst (restore_workspaces h data w) = plan_result h (sent w) plan
  /\ sent (snd (restore_workspaces h data w))
     = sent w ++ issued h (sent w) plan.
Proof.
  intros Hrecords Hok Hdist Hreply Havail plan.
  assert (Ht : workspace_targets data
               = Ok (map target_of (filter named records))).
  { rewrite (workspace_targets_of _ _ Hrecords).
    apply (targets_of_distinct records [] Hok Hdist). intros kv r []. }
  rewrite (restore_workspaces_run h data outputs _ available w Ht Hreply Havail).
  subst plan. rewrite <- placement_of_targets.
  apply exactly_run, exactly_for_each.
  apply Forall_forall. intros [n o] Hin. apply exactly_place.
  apply in_map_iff in Hin as (r & Heq & Hin).
  apply filter_In in Hin as [Hin _].
  rewrite forallb_forall in Hok. specialize (Hok r Hin).
  destruct (record_ok_dict r Hok) as (d & -> & _ & Ho).
  now inversion Heq; subst.
Qed.

Lemma workspaces_are_placed_in_order_witness :
  workspaces_of Sample.two_workspaces
  = Ok [Sample.saved_workspace (PStr "1") (PStr "DP-1");
        Sample.saved_workspace (PStr "2") (PStr "HDMI-1")]
  /\ sent (snd (restore_workspaces Sample.desktop Sample.two_workspaces
                  empty_world))
     = [cmd_workspace (PStr "1"); cmd_move (PStr "DP-1");
        cmd_workspace (PStr "2"); cmd_move (PStr "HDMI-1")].
Proof.
  split; [reflexivity|].
  exact (proj2 (workspaces_are_placed_in_order
                  Sample.desktop Sample.two_workspaces
                  [Sample.saved_workspace (PStr "1") (PStr "DP-1");
                   Sample.saved_workspace (PStr "2") (PStr "HDMI-1")]
                  Sample.outputs_reply [PStr "DP-1"; PStr "HDMI-1"]
                  empty_world
                  eq_refl eq_refl eq_refl eq_refl eq_refl)).
Defined.

(** C4, as stated, fails: a window record whose command is the empty string
    has neither field null, and is skipped. *)
Lemma empty_command_is_skipped :
  ~ phase2_as_stated Sample.desktop Sample.empty_command empty_world.
Proof.
  intros H.
  specialize (H [Sample.saved_window (PStr "1") (PStr EmptyString)] eq_refl).
  discriminate H.
Qed.

Example empty_command_evaluated :
  launch_windows Sample.desktop Sample.empty_command empty_world
  = (Ok tt, empty_world)
  /\ flat_map relaunch_as_stated
       [Sample.saved_window (PStr "1") (PStr EmptyString)]
     = [cmd_workspace (PStr "1"); cmd_exec (PStr EmptyString)].
Proof. split; reflexivity. Qed.

(** C4, amended: exactly the window records whose command or workspace is
    null, missing or empty are skipped; every other one is processed in
    snapshot order by a switch to its workspace followed by the execution
    of its command.  The sequence ends with the first command the
    compositor rejects. *)
Theorem windows_are_relaunched_in_order
  (h : host) (data : pyval) (wins : list pyval) (w : world) :
  windows_of data = Ok wins ->
  forallb is_dict wins = true ->
  let plan := flat_map relaunch wins in
  fst (launch_windows h data w) = plan_result h (sent w) plan
  /\ sent (snd (launch_windows h data w)) = sent w ++ issued h (sent w) plan.
Proof.
  intros Hwins Hok plan.
  rewrite (launch_windows_run h data wins w Hwins).
  apply exactly_run, exactly_for_each.
  apply Forall_forall. intros win Hin. apply exactly_launch.
  rewrite forallb_forall in Hok. now apply Hok.
Qed.

Lemma windows_are_relaunched_in_order_witness :
  windows_of Sample.two_workspaces
  = Ok [Sample.saved_window (PStr "1") (PStr "foot")]
  /\ sent (snd (launch_windows Sample.desktop Sample.two_workspaces empty_world))
     = [cmd_workspace (PStr "1"); cmd_exec (PStr "foot")].
Proof.
  split; [reflexivity|].
  exact (proj2 (windows_are_relaunched_in_order
                  Sample.desktop Sample.two_workspaces
                  [Sample.saved_window (PStr "1") (PStr "foot")] empty_world
                  eq_refl eq_refl)).
Defined.

Lemma rejected_command_aborts_restore_witness :
  let w := Sample.on_disk "session.json" Sample.two_workspaces in
  sent (snd (restore_state (Sample.flaky 1) "session.json" w))
  = sent w ++ [cmd_workspace (PStr "1")] ++ cmd_move (PStr "DP-1") :: []
  /\ accepts (Sample.flaky 1) (sent w ++ [cmd_workspace (PStr "1")])
       (cmd_move (PStr "DP-1")) = false
  /\ fst (restore_state (Sample.flaky 1) "session.json" w)
     = Raise CalledProcessError.
Proof.
  intros w. split; [reflexivity|]. split; [reflexivity|].
  exact (proj2 (rejected_command_aborts_restore
                  (Sample.flaky 1) "session.json" w
                  [cmd_workspace (PStr "1")] [] (cmd_move (PStr "DP-1"))
                  eq_refl eq_refl)).
Defined.

(** A rejection in the second phase: the windows that follow are not
    launched. *)
Example rejected_exec_aborts_restore :
  restore_state (Sample.flaky 5) "session.json"
    (Sample.on_disk "session.json" Sample.two_workspaces)
  = (Raise CalledProcessError,
     mkWorld [cmd_workspace (PStr "1"); cmd_move (PStr "DP-1");
              cmd_workspace (PStr "2"); cmd_move (PStr "HDMI-1");
              cmd_workspace (PStr "1"); cmd_exec (PStr "foot")]
             [] [("session.json", Ok Sample.two_workspaces)]).
Proof. reflexivity. Qed.

(** The three records of the sample, two of them named ["1"]: one switch to
    ["1"], at the place of the first record, with the output of the last. *)
Example same_name_twice_commands :
  sent (snd (restore_workspaces Sample.desktop Sample.same_name_twice
               empty_world))
  = [cmd_workspace (PStr "1"); cmd_move (PStr "HDMI-1");
     cmd_workspace (PStr "2"); cmd_move (PStr "DP-1")].
Proof. reflexivity. Qed.

(* ================================================================== *)
(** ** SnapshotBuilder *)

Module BuilderFacts.

Local Open Scope py_scope.

Lemma workspace_records_dicts (items : list pyval) :
  forallb is_dict items = true ->
  workspace_records items = Ok (map projected items).
Proof.
  induction items as [|ws items IH]; [reflexivity|].
  cbn [forallb]. intros H. apply andb_prop in H as [Hd Hrest].
  destruct ws; try discriminate.
  cbn [workspace_records workspace_record py_get rbind].
  now rewrite (IH Hrest).
Qed.

Lemma save_state_run (h : host) (path : string) (w : world)
  (tree workspaces : pyval) (items : list pyval) :
  reply h (sent w) "get_tree" = Ok tree ->
  reply h (sent w) "get_workspaces" = Ok workspaces ->
  scene_ok (proc_cmdline h) (decode h) tree = true ->
  mkdir_parent h path = Ok tt ->
  py_iter workspaces = Ok items ->
  forallb is_dict items = true ->
  write_text h path = Ok tt ->
  save_state h path w
  = (Ok tt,
     mkWorld (sent w) (printed w ++ [[Lit "Saved session to "; Lit path]])
       ((path,
         Ok (payload_of (clock h) (map projected items)
               (map (expected_record (proc_cmdline h) (decode h))
                    (window_nodes tree)))) :: files w)).
Proof.
  intros Htree Hws Hok Hmk Hit Hdicts Hwr.
  unfold save_state, bind, lift, swaymsg_json, dump_json, print.
  rewrite Htree, Hws, (collect_windows_returns _ _ _ Hok), Hmk, Hit,
    (workspace_records_dicts _ Hdicts), Hwr.
  reflexivity.
Qed.

End BuilderFacts.
Import BuilderFacts.

(** C7, as stated, fails: a workspace without a name is written to the
    snapshot like any other, with a null name. *)
Lemma unnamed_workspace_is_saved :
  ~ saved_as_stated Sample.desktop_with_unnamed "session.json" empty_world.
Proof.
  intros H.
  specialize (H _ _ _ eq_refl eq_refl eq_refl).
  discriminate H.
Qed.

Example unnamed_workspace_saved_evaluated :
  exists payload,
    file_at (files (snd (save_state Sample.desktop_with_unnamed
                           "session.json" empty_world)))
            "session.json" = Some (Ok payload)
    /\ field payload "workspaces"
       = PList [PDict [("name", PStr "1"); ("output", PStr "DP-1");
                       ("focused", PBool true)];
                PDict [("name", PNone); ("output", PStr "HDMI-1");
                       ("focused", PBool false)]].
Proof. eexists. split; reflexivity. Qed.

(** C7, amended: the snapshot that is written holds one WorkspaceRecord
    (name, output, focused flag) for every workspace the compositor lists,
    in the same order, whether the workspace has a name or not. *)
Theorem every_workspace_is_saved
  (h : host) (path : string) (w : world) (tree workspaces : pyval)
  (items : list pyval) :
  reply h (sent w) "get_tree" = Ok tree ->
  reply h (sent w) "get_workspaces" = Ok workspaces ->
  scene_ok (proc_cmdline h) (decode h) tree = true ->
  mkdir_parent h path = Ok tt ->
  py_iter workspaces = Ok items ->
  forallb is_dict items = true ->
  write_text h path = Ok tt ->
  fst (save_state h path w) = Ok tt
  /\ exists payload,
      file_at (files (snd (save_state h path w))) path = Some (Ok payload)
      /\ field payload "workspaces" = PList (map projected items).
Proof.
  intros Htree Hws Hok Hmk Hit Hdicts Hwr.
  rewrite (save_state_run h path w tree workspaces items
             Htree Hws Hok Hmk Hit Hdicts Hwr).
  split; [reflexivity|]. eexists. split.
  - cbn [snd files file_at]. rewrite String.eqb_refl. reflexivity.
  - reflexivity.
Qed.

Lemma every_workspace_is_saved_witness :
  fst (save_state Sample.desktop_with_unnamed "session.json" empty_world)
  = Ok tt
  /\ exists payload,
      file_at (files (snd (save_state Sample.desktop_with_unnamed
                             "session.json" empty_world)))
              "session.json" = Some (Ok payload)
      /\ field payload "workspaces"
         = PList (map projected
                    [Sample.live_workspace "1" "DP-1" true;
                     PDict [("output", PStr "HDMI-1");
                            ("focused", PBool false)]]).
Proof.
  exact (every_workspace_is_saved
           Sample.desktop_with_unnamed "session.json" empty_world
           Sample.two_outputs
           (PList [Sample.live_workspace "1" "DP-1" true;
                   PDict [("output", PStr "HDMI-1"); ("focused", PBool false)]])
           _ eq_refl eq_refl eq_refl eq_refl eq_refl eq_refl eq_refl).
Defined.

(* ================================================================== *)
(** ** Saving, then restoring *)

Module RoundTripFacts.

Local Open Scope py_scope.

Section Restoring.

Variable h : host.

Lemma exactly_restore_workspaces (data outputs : pyval)
  (records : list pyval) (available : pyset) :
  workspaces_of data = Ok records ->
  forallb record_ok records = true ->
  distinct_names records = true ->
  (forall history, reply h history "get_outputs" = Ok outputs) ->
  available_of outputs = Ok available ->
  exactly h (restore_workspaces h data)
            (flat_map (placement_of_record available) records).
Proof.
  intros Hrecords Hok Hdist Hreply Havail.
  assert (Ht : workspace_targets data
               = Ok (map target_of (filter named records))).
  { rewrite (workspace_targets_of _ _ Hrecords).
    apply (targets_of_distinct records [] Hok Hdist). intros kv r []. }
  apply (exactly_ext h _
           (for_each (map target_of (filter named records))
                     (place_workspace h available))).
  - intros w.
    apply (restore_workspaces_run h data outputs _ available w Ht
             (Hreply (sent w)) Havail).
  - rewrite <- placement_of_targets. apply exactly_for_each.
    apply Forall_forall. intros [n o] Hin. apply exactly_place.
    apply in_map_iff in Hin as (r & Heq & Hin).
    apply filter_In in Hin as [Hin _].
    rewrite forallb_forall in Hok. specialize (Hok r Hin).
    destruct (record_ok_dict r Hok) as (d & -> & _ & Ho).
    now inversion Heq; subst.
Qed.

Lemma exactly_launch_windows (data : pyval) (wins : list pyval) :
  windows_of data = Ok wins ->
  forallb is_dict wins = true ->
  exactly h (launch_windows h data) (flat_map relaunch wins).
Proof.
  intros Hwins Hok.
  apply (exactly_ext h _ (for_each wins (launch_window h))).
  - intros w. now apply launch_windows_run.
  - apply exactly_for_each, Forall_forall. intros win Hin.
    apply exactly_launch. rewrite forallb_forall in Hok. now apply Hok.
Qed.

Lemma restore_state_run (path : string) (data : pyval) (w : world) :
  file_at (files w) path = Some (Ok data) ->
  restore_state h path w
  = (restore_workspaces h data ;;;
     (launch_windows h data ;;;
      print [Lit "Restored session from "; Lit path])) w.
Proof.
  intros Hfile. unfold restore_state, bind at 1 2, path_exists, load_json.
  rewrite Hfile. cbn beta iota delta [negb]. now rewrite Hfile.
Qed.

Lemma all_accepted_always (plan : list fstring) :
  (forall history c, accepts h history c = true) ->
  forall history, all_accepted h history plan = true.
Proof.
  intros Hacc. induction plan as [|c plan IH]; intros history; cbn.
  - reflexivity.
  - now rewrite Hacc, IH.
Qed.

End Restoring.

(** *** Reading assignments off a command sequence *)

Lemma placement_present (available : pyset) (name output : pyval) :
  (truthy output = true -> existsb (py_eq output) available = true) ->
  placement available (name, output)
  = cmd_workspace name :: (if truthy output then [cmd_move output] else []).
Proof.
  intros Hav. unfold placement.
  destruct (truthy output); [|reflexivity].
  now rewrite (Hav eq_refl).
Qed.

Lemma placements_of_records (available : pyset) (items : list pyval) :
  (forall item, In item items ->
                truthy (field item "output") = true ->
                existsb (py_eq (field item "output")) available = true) ->
  forall current tail,
  exists current',
    placements current
      (flat_map (placement_of_record available) items ++ tail)
    = captured items ++ placements current' tail.
Proof.
  unfold captured.
  induction items as [|item items IH]; intros Hav current tail.
  - now exists current.
  - assert (Hav' : forall i, In i items ->
                     truthy (field i "output") = true ->
                     existsb (py_eq (field i "output")) available = true).
    { intros i Hi. apply Hav. now right. }
    cbn [flat_map filter]. unfold placement_of_record at 1.
    destruct (named item); cbn [andb]; [|now apply IH].
    unfold target_of at 1.
    rewrite (placement_present available _ _ (Hav item (or_introl eq_refl))).
    destruct (truthy (field item "output")).
    + destruct (IH Hav' (Some (field item "name")) tail) as [c' Hc'].
      exists c'. cbn [map app]. rewrite <- Hc'. reflexivity.
    + destruct (IH Hav' (Some (field item "name")) tail) as [c' Hc'].
      exists c'. rewrite <- Hc'. reflexivity.
Qed.

Lemma placements_of_windows (wins : list pyval) :
  forall current tail,
  exists current',
    placements current (flat_map relaunch wins ++ tail)
    = placements current' tail.
Proof.
  induction wins as [|win wins IH]; intros current tail.
  - now exists current.
  - cbn [flat_map]. unfold relaunch at 1.
    destruct (negb (truthy (field win "cmd"))
              || negb (truthy (field win "workspace"))); [now apply IH|].
    destruct (IH (Some (field win "workspace")) tail) as [c' Hc'].
    exists c'. rewrite <- Hc'. reflexivity.
Qed.

Lemma assignment_from (ps : list (pyval * pyval)) (name : pyval) :
  forall acc,
    fold_left (fun acc p => if py_eq (fst p) name then Some (snd p) else acc)
              ps acc
    = match assignment_after ps name with
      | Some o => Some o
      | None => acc
      end.
Proof.
  unfold assignment_after.
  induction ps as [|p ps IH]; intros acc; [reflexivity|].
  cbn [fold_left]. rewrite IH. rewrite (IH (if py_eq (fst p) name then _ else _)).
  destruct (fold_left _ ps None); [reflexivity|].
  now destruct (py_eq (fst p) name).
Qed.

Lemma assignment_after_twice (ps : list (pyval * pyval)) (name : pyval) :
  assignment_after (ps ++ ps) name = assignment_after ps name.
Proof.
  unfold assignment_after at 1. rewrite fold_left_app.
  fold (assignment_after ps name). rewrite assignment_from.
  now destruct (assignment_after ps name).
Qed.

(** *** The snapshot [save_state] writes, read back *)

Lemma projected_ok (items : list pyval) :
  forallb record_ok items = true ->
  forallb record_ok (map projected items) = true
  /\ forallb is_dict items = true.
Proof.
  induction items as [|item items IH]; [now split|].
  cbn [forallb map]. intros H. apply andb_prop in H as [Hi Hrest].
  destruct (IH Hrest) as [H1 H2]. rewrite H1, H2.
  destruct item; try discriminate. now rewrite andb_true_r.
Qed.

Lemma forallb_projected (f : pyval -> bool) (items : list pyval) :
  forallb (fun r => f (field r "name")) (map projected items)
  = forallb (fun r => f (field r "name")) items.
Proof.
  induction items as [|item items IH]; [reflexivity|].
  cbn [map forallb]. now rewrite IH.
Qed.

Lemma projected_distinct (items : list pyval) :
  distinct_names (map projected items) = distinct_names items.
Proof.
  induction items as [|item items IH]; [reflexivity|].
  cbn [distinct_names map]. rewrite IH. f_equal.
  apply (forallb_projected
           (fun n => negb (named item && truthy n
                           && py_eq (field item "name") n))).
Qed.

Lemma projected_placement (available : pyset) (items : list pyval) :
  flat_map (placement_of_record available) (map projected items)
  = flat_map (placement_of_record available) items.
Proof.
  induction items as [|item items IH]; [reflexivity|].
  cbn [map flat_map]. now rewrite IH.
Qed.

Lemma expected_are_dicts (proc_cmdline : pyval -> result (list byte))
  (decode : list byte -> string) (nodes : list (list pyval * pyval)) :
  forallb is_dict (map (expected_record proc_cmdline decode) nodes) = true.
Proof.
  induction nodes as [|[a n] nodes IH]; [reflexivity|]. exact IH.
Qed.

End RoundTripFacts.
Import RoundTripFacts.

Lemma placements_of_restore (available : pyset) (items wins : list pyval) :
  (forall item, In item items ->
                truthy (field item "output") = true ->
                existsb (py_eq (field item "output")) available = true) ->
  forall current tail,
  exists current',
    placements current
      ((flat_map (placement_of_record available) items
        ++ flat_map relaunch wins) ++ tail)
    = captured items ++ placements current' tail.
Proof.
  intros Hav current tail.
  destruct (placements_of_records available items Hav current
              (flat_map relaunch wins ++ tail)) as [c1 H1].
  destruct (placements_of_windows wins c1 tail) as [c2 H2].
  exists c2. now rewrite <- app_assoc, H1, H2.
Qed.

(** C8: a session is saved and the snapshot is restored while every output
    a workspace was on is still available (and the compositor accepts the
    commands).  The placement commands of the restore assign every named
    workspace to the output it was captured on; restoring once more issues
    the same commands and leaves every workspace on the same output. *)
Theorem save_then_restore_places_as_captured
  (h1 h2 : host) (path : string) (w : world) (tree workspaces : pyval)
  (items : list pyval) (outputs : pyval) (available : pyset) :
  reply h1 (sent w) "get_tree" = Ok tree ->
  reply h1 (sent w) "get_workspaces" = Ok workspaces ->
  scene_ok (proc_cmdline h1) (decode h1) tree = true ->
  py_iter workspaces = Ok items ->
  forallb record_ok items = true ->
  distinct_names items = true ->
  mkdir_parent h1 path = Ok tt ->
  write_text h1 path = Ok tt ->
  (forall history, reply h2 history "get_outputs" = Ok outputs) ->
  available_of outputs = Ok available ->
  (forall item, In item items ->
                truthy (field item "output") = true ->
                existsb (py_eq (field item "output")) available = true) ->
  (forall history c, accepts h2 history c = true) ->
  let saved := save_state h1 path w in
  let restored := restore_state h2 path (snd saved) in
  let again := restore_state h2 path (snd restored) in
  fst saved = Ok tt
  /\ exists new,
      fst restored = Ok tt
      /\ sent (snd restored) = sent (snd saved) ++ new
      /\ placements None new = captured items
      /\ fst again = Ok tt
      /\ sent (snd again) = sent (snd restored) ++ new
      /\ forall name,
          assignment_after (placements None (new ++ new)) name
          = assignment_after (placements None new) name.
Proof.
  intros Htree Hws Hscene Hiter Hrecs Hdist Hmk Hwr Hreply Havail Hpresent
    Hacc saved restored again.
  destruct (projected_ok items Hrecs) as [Hpok Hdicts].
  pose proof (save_state_run h1 path w tree workspaces items
                Htree Hws Hscene Hmk Hiter Hdicts Hwr) as Hsave.
  set (wins := map (expected_record (proc_cmdline h1) (decode h1))
                   (window_nodes tree)) in Hsave.
  set (payload := payload_of (clock h1) (map projected items) wins) in Hsave.
  set (plan := flat_map (placement_of_record available) items
               ++ flat_map relaunch wins).
  assert (Hbody : exactly h2
            (restore_workspaces h2 payload ;;;
             (launch_windows h2 payload ;;;
              print [Lit "Restored session from "; Lit path]))%py plan).
  { unfold plan.
    rewrite <- (projected_placement available items),
      <- (app_nil_r (flat_map relaunch wins)).
    apply exactly_seq.
    - apply (exactly_restore_workspaces h2 payload outputs
               (map projected items) available);
        [reflexivity | exact Hpok | | exact Hreply | exact Havail].
      now rewrite projected_distinct.
    - apply exactly_seq; [|apply exactly_print].
      apply (exactly_launch_windows h2 payload wins); [reflexivity|].
      apply expected_are_dicts. }
  assert (Hrun : forall w',
             file_at (files w') path = Some (Ok payload) ->
             fst (restore_state h2 path w') = Ok tt
             /\ sent (snd (restore_state h2 path w')) = sent w' ++ plan
             /\ files (snd (restore_state h2 path w')) = files w').
  { intros w' Hfile. rewrite (restore_state_run h2 path payload w' Hfile).
    destruct (Hbody w') as (Hr & Hs & Hf).
    unfold plan_result in Hr.
    rewrite (all_accepted_always h2 plan Hacc) in Hr.
    rewrite (all_accepted_issued h2 plan (sent w')
               (all_accepted_always h2 plan Hacc (sent w'))) in Hs.
    auto. }
  assert (Hfile : file_at (files (snd saved)) path = Some (Ok payload)).
  { subst saved. rewrite Hsave. cbn [snd files file_at].
    now rewrite String.eqb_refl. }
  destruct (Hrun (snd saved) Hfile) as (Hr1 & Hs1 & Hf1).
  fold restored in Hr1, Hs1, Hf1.
  assert (Hfile2 : file_at (files (snd restored)) path = Some (Ok payload)).
  { now rewrite Hf1. }
  destruct (Hrun (snd restored) Hfile2) as (Hr2 & Hs2 & _).
  fold again in Hr2, Hs2.
  split; [subst saved; now rewrite Hsave|].
  exists plan.
  assert (Hone : placements None plan = captured items).
  { destruct (placements_of_restore available items wins Hpresent None [])
      as [c Hc].
    fold plan in Hc. rewrite app_nil_r in Hc. rewrite Hc.
    cbn [placements]. apply app_nil_r. }
  repeat split; try assumption.
  intros name. rewrite Hone.
  destruct (placements_of_restore available items wins Hpresent None plan)
    as [c Hc].
  fold plan in Hc. rewrite Hc.
  destruct (placements_of_restore available items wins Hpresent c [])
    as [c' Hc'].
  fold plan in Hc'. rewrite app_nil_r in Hc'. rewrite Hc'.
  cbn [placements]. rewrite app_nil_r. apply assignment_after_twice.
Qed.

Lemma save_then_restore_places_as_captured_witness :
  let saved := save_state Sample.desktop "session.json" empty_world in
  let restored := restore_state Sample.desktop "session.json" (snd saved) in
  let again := restore_state Sample.desktop "session.json" (snd restored) in
  fst saved = Ok tt
  /\ exists new,
      fst restored = Ok tt
      /\ sent (snd restored) = sent (snd saved) ++ new
      /\ placements None new
         = captured [Sample.live_workspace "1" "DP-1" true;
                     Sample.live_workspace "2" "HDMI-1" false]
      /\ fst again = Ok tt
      /\ sent (snd again) = sent (snd restored) ++ new
      /\ forall name,
          assignment_after (placements None (new ++ new)) name
          = assignment_after (placements None new) name.
Proof.
  apply (save_then_restore_places_as_captured
           Sample.desktop Sample.desktop "session.json" empty_world
           Sample.two_outputs Sample.workspaces_reply
           [Sample.live_workspace "1" "DP-1" true;
            Sample.live_workspace "2" "HDMI-1" false]
           Sample.outputs_reply [PStr "DP-1"; PStr "HDMI-1"]);
    try reflexivity.
  intros item [<-|[<-|[]]] _; reflexivity.
Defined.

(** The sample session, saved and restored. *)
Example sample_round_trip :
  let saved := save_state Sample.desktop "session.json" empty_world in
  sent (snd (restore_state Sample.desktop "session.json" (snd saved)))
  = [cmd_workspace (PStr "1"); cmd_move (PStr "DP-1");
     cmd_workspace (PStr "2"); cmd_move (PStr "HDMI-1");
     cmd_workspace (PStr "1"); cmd_exec (PStr "foot");
     cmd_workspace (PStr "2"); cmd_exec (PStr "firefox --new-window")].
Proof. reflexivity. Qed.

(* ================================================================== *)
(** ** More about the walker *)

Module WalkerMore.

Lemma forallb_false {A} (f : A -> bool) (l : list A) :
  forallb f l = false <-> exists x, In x l /\ f x = false.
Proof.
  induction l as [|y l IH]; cbn [forallb].
  - split; [discriminate | intros (x & [] & _)].
  - rewrite andb_false_iff, IH. split.
    + intros [Hy|(x & Hin & Hx)]; [exists y | exists x]; cbn; auto.
    + intros (x & [<-|Hin] & Hx); [now left | right; eauto].
Qed.

Lemma read_cmdline_ok (proc_cmdline : pyval -> result (list byte))
  (decode : list byte -> string) (pid : pyval) :
  (forall e, proc_cmdline pid = Raise e -> is_OSError e = true) ->
  is_ok (read_cmdline proc_cmdline decode pid) = true.
Proof.
  intros H. unfold read_cmdline.
  destruct (proc_cmdline pid) as [raw|e]; [reflexivity|].
  rewrite (H e eq_refl). now destruct (is_FileNotFoundError e).
Qed.

Lemma node_ok_shape (proc_cmdline : pyval -> result (list byte))
  (decode : list byte -> string) (node : pyval) :
  (forall pid e, proc_cmdline pid = Raise e -> is_OSError e = true) ->
  node_ok proc_cmdline decode node = shape_ok node.
Proof.
  intros H. destruct node as [| | | | | |d]; try reflexivity.
  unfold node_ok, shape_ok.
  destruct (is_window (PDict d)); [|reflexivity].
  now rewrite (read_cmdline_ok _ _ _ (H (get d "pid"))), andb_true_r.
Qed.

Lemma window_record_field (k : string)
  (workspace output pid app_id wm_class title cmd cmd' marks : pyval) :
  k <> "cmd" ->
  field (window_record workspace output pid app_id wm_class title cmd marks) k
  = field (window_record workspace output pid app_id wm_class title cmd' marks) k.
Proof.
  intros Hk. cbn [field window_record]. unfold get, get_default.
  cbn [lookup].
  repeat match goal with
         | |- context [if ?a =? k then _ else _] =>
             destruct (String.eqb_spec a k); [try reflexivity; congruence|]
         end.
  reflexivity.
Qed.

End WalkerMore.
Import WalkerMore.

(** X1: One node the walker cannot get through makes the whole walk fail: when
    some node reachable from the root through ["nodes"] lists is not a
    dictionary, or has a ["nodes"] entry that cannot be iterated, or is a
    window whose ["window_properties"] is a non-empty non-dictionary or
    whose command line read raises, [collect_windows] raises and returns
    no list, not even of the windows found before that node. *)
Theorem ill_shaped_node_fails_the_walk
  (proc_cmdline : pyval -> result (list byte)) (decode : list byte -> string)
  (tree : pyval) (ancestors : list pyval) (node : pyval) :
  occurs tree ancestors node ->
  node_ok proc_cmdline decode node = false ->
  exists e, collect_windows proc_cmdline decode tree = Raise e.
Proof.
  intros Hocc Hbad.
  destruct (collect_windows proc_cmdline decode tree) as [ws|e] eqn:Ec;
    [|eauto].
  apply collect_windows_spec in Ec as [Hok _].
  unfold scene_ok in Hok. rewrite forallb_forall in Hok.
  apply (scene_nodes_occurs proc_cmdline) in Hocc. specialize (Hok _ Hocc).
  cbn [snd] in Hok. congruence.
Qed.

Lemma ill_shaped_node_fails_the_walk_witness :
  exists e,
    collect_windows Sample.proc Sample.ascii_decode Machine.number_for_node
    = Raise e.
Proof.
  apply (ill_shaped_node_fails_the_walk Sample.proc Sample.ascii_decode
           Machine.number_for_node
           [Sample.node "workspace" "1" [Sample.window 100 "term"; PInt 7];
            Sample.node "output" "DP-1"
              [Sample.node "workspace" "1"
                 [Sample.window 100 "term"; PInt 7]];
            Machine.number_for_node]
           (PInt 7)).
  - apply (scene_nodes_occurs Sample.proc). vm_compute. auto 10.
  - reflexivity.
Defined.

(** The window found before the number is lost with it. *)
Example number_for_node_evaluated :
  collect_windows Sample.proc Sample.ascii_decode Machine.number_for_node
  = Raise AttributeError.
Proof. reflexivity. Qed.

(** X3: What [/proc] holds decides the ["cmd"] field and nothing else: walked
    against two different process tables, a tree gives as many records, in
    the same order, equal in every other field. *)
Theorem only_cmd_depends_on_proc
  (proc1 proc2 : pyval -> result (list byte)) (decode1 decode2 : list byte -> string)
  (tree : pyval) (windows1 windows2 : list pyval) :
  collect_windows proc1 decode1 tree = Ok windows1 ->
  collect_windows proc2 decode2 tree = Ok windows2 ->
  Forall2 (fun r1 r2 => forall k, k <> "cmd" -> field r1 k = field r2 k)
          windows1 windows2.
Proof.
  intros H1 H2.
  apply collect_windows_spec in H1 as [_ ->].
  apply collect_windows_spec in H2 as [_ ->].
  induction (window_nodes tree) as [|[a n] nodes IH]; cbn [map]; constructor.
  - intros k Hk. unfold expected_record. now apply window_record_field.
  - exact IH.
Qed.

Lemma only_cmd_depends_on_proc_witness :
  collect_windows Sample.proc Sample.ascii_decode Sample.two_outputs
  = Ok [window_record (PStr "1") (PStr "DP-1") (PInt 100) PNone (PStr "term")
          PNone (PStr "foot") (PList []);
        window_record (PStr "2") (PStr "HDMI-1") (PInt 200) PNone (PStr "web")
          PNone (PStr "firefox --new-window") (PList [])]
  /\ collect_windows (fun _ => Raise FileNotFoundError) Sample.ascii_decode
       Sample.two_outputs
     = Ok [window_record (PStr "1") (PStr "DP-1") (PInt 100) PNone (PStr "term")
             PNone PNone (PList []);
           window_record (PStr "2") (PStr "HDMI-1") (PInt 200) PNone
             (PStr "web") PNone PNone (PList [])]
  /\ Forall2 (fun r1 r2 => forall k, k <> "cmd" -> field r1 k = field r2 k)
       [window_record (PStr "1") (PStr "DP-1") (PInt 100) PNone (PStr "term")
          PNone (PStr "foot") (PList []);
        window_record (PStr "2") (PStr "HDMI-1") (PInt 200) PNone (PStr "web")
          PNone (PStr "firefox --new-window") (PList [])]
       [window_record (PStr "1") (PStr "DP-1") (PInt 100) PNone (PStr "term")
          PNone PNone (PList []);
        window_record (PStr "2") (PStr "HDMI-1") (PInt 200) PNone (PStr "web")
          PNone PNone (PList [])].
Proof.
  split; [reflexivity|]. split; [reflexivity|].
  exact (only_cmd_depends_on_proc
           Sample.proc (fun _ => Raise FileNotFoundError)
           Sample.ascii_decode Sample.ascii_decode Sample.two_outputs
           _ _ eq_refl eq_refl).
Defined.

(** X4: Every record has the same eight keys in the same order, and a field
    the node lacks is given its default: the application identifier is
    copied as it is (null when missing), the marks are the node's or an
    empty list, the window class is null without window properties, and the
    command line is null when the process cannot be read. *)
Theorem records_default_missing_fields
  (proc_cmdline : pyval -> result (list byte)) (decode : list byte -> string)
  (tree : pyval) (windows : list pyval) :
  collect_windows proc_cmdline decode tree = Ok windows ->
  Forall2 (fun an r =>
             (exists d, r = PDict d /\ map fst d = window_keys)
             /\ field r "app_id" = field (snd an) "app_id"
             /\ field r "marks"
                = (if truthy (field (snd an) "marks")
                   then field (snd an) "marks" else PList [])
             /\ (truthy (field (snd an) "window_properties") = false ->
                 field r "wm_class" = PNone)
             /\ (forall e, proc_cmdline (field (snd an) "pid") = Raise e ->
                           field r "cmd" = PNone))
          (window_nodes tree) windows.
Proof.
  intros H. apply collect_windows_spec in H as [_ ->].
  induction (window_nodes tree) as [|[a n] nodes IH]; cbn [map]; constructor;
    [|exact IH].
  cbn [fst snd expected_record]. repeat split.
  - eexists. split; reflexivity.
  - intros Hwp. cbn [field window_record get get_default lookup String.eqb
                       Ascii.eqb Bool.eqb].
    unfold class_of, py_or. now rewrite Hwp.
  - intros e He. cbn [field window_record get get_default lookup String.eqb
                        Ascii.eqb Bool.eqb].
    unfold cmd_of, read_cmdline. rewrite He.
    destruct (is_FileNotFoundError e); [reflexivity|].
    now destruct (is_OSError e).
Qed.

Lemma records_default_missing_fields_witness :
  collect_windows (fun _ => Raise PermissionError) Sample.ascii_decode
    Sample.with_floating
  = Ok [window_record (PStr "1") (PStr "DP-1") (PInt 100) PNone (PStr "term")
          PNone PNone (PList [])]
  /\ Forall2 (fun an r =>
             (exists d, r = PDict d /\ map fst d = window_keys)
             /\ field r "app_id" = field (snd an) "app_id"
             /\ field r "marks"
                = (if truthy (field (snd an) "marks")
                   then field (snd an) "marks" else PList [])
             /\ (truthy (field (snd an) "window_properties") = false ->
                 field r "wm_class" = PNone)
             /\ (forall e, (fun _ : pyval => @Raise (list byte) PermissionError)
                             (field (snd an) "pid") = Raise e ->
                           field r "cmd" = PNone))
          (window_nodes Sample.with_floating)
          [window_record (PStr "1") (PStr "DP-1") (PInt 100) PNone (PStr "term")
             PNone PNone (PList [])].
Proof.
  split; [reflexivity|].
  exact (records_default_missing_fields
           (fun _ => Raise PermissionError) Sample.ascii_decode
           Sample.with_floating _ eq_refl).
Defined.

(* ================================================================== *)
(** ** More about [read_cmdline] *)

Module InspectorMore.

Lemma split_nul_other (b : byte) (raw : list byte) :
  b <> Init.Byte.x00 ->
  split_nul (b :: raw)
  = match split_nul raw with
    | seg :: segs => (b :: seg) :: segs
    | [] => [[b]]
    end.
Proof. intros Hb. destruct b; try reflexivity. congruence. Qed.

Lemma split_nul_argument (arg rest : list byte) :
  ~ In Init.Byte.x00 arg ->
  split_nul (arg ++ Init.Byte.x00 :: rest) = arg :: split_nul rest.
Proof.
  induction arg as [|b arg IH]; intros Hnul; [reflexivity|].
  cbn [app]. rewrite split_nul_other by (intros ->; apply Hnul; now left).
  rewrite IH by (intros Hin; apply Hnul; now right). reflexivity.
Qed.

Lemma split_nul_cmdline (argv : list (list byte)) :
  Forall plain argv -> split_nul (cmdline_of argv) = argv ++ [[]].
Proof.
  induction 1 as [|arg argv [_ Hnul] _ IH]; [reflexivity|].
  unfold cmdline_of in *. cbn [flat_map app].
  rewrite <- app_assoc. cbn [app].
  now rewrite (split_nul_argument arg _ Hnul), IH.
Qed.

Lemma arguments_cmdline (argv : list (list byte)) :
  Forall plain argv -> arguments (cmdline_of argv) = argv.
Proof.
  intros H. unfold arguments. rewrite (split_nul_cmdline argv H).
  rewrite filter_app. cbn [filter nonempty]. rewrite app_nil_r.
  induction H as [|arg argv [Hne _] _ IH]; [reflexivity|].
  cbn [filter]. destruct arg; [congruence|]. cbn [nonempty]. now rewrite IH.
Qed.

Lemma join_space_nonempty (p : string) (ps : list string) :
  p <> EmptyString -> join_space (p :: ps) <> EmptyString.
Proof.
  intros Hp. unfold join_space. cbn [String.concat].
  destruct ps; [exact Hp|].
  destruct p; [congruence | discriminate].
Qed.

End InspectorMore.
Import InspectorMore.

(** X5: Reading back what the kernel writes: for a process started with
    arguments that are non-empty and hold no NUL byte, [read_cmdline]
    returns the decoded arguments joined by single spaces. *)
Theorem read_cmdline_of_argv
  (proc_cmdline : pyval -> result (list byte)) (decode : list byte -> string)
  (pid : pyval) (argv : list (list byte)) :
  Forall plain argv ->
  argv <> [] ->
  proc_cmdline pid = Ok (cmdline_of argv) ->
  read_cmdline proc_cmdline decode pid
  = Ok (Some (join_space (map decode argv))).
Proof.
  intros Hplain Hne Hread. unfold read_cmdline. rewrite Hread.
  fold (arguments (cmdline_of argv)). rewrite (arguments_cmdline argv Hplain).
  destruct argv; [congruence | reflexivity].
Qed.

Lemma read_cmdline_of_argv_witness :
  Forall plain [list_byte_of_string "firefox";
                list_byte_of_string "--new-window"]
  /\ Sample.proc (PInt 200)
     = Ok (cmdline_of [list_byte_of_string "firefox";
                       list_byte_of_string "--new-window"])
  /\ read_cmdline Sample.proc Sample.ascii_decode (PInt 200)
     = Ok (Some "firefox --new-window").
Proof.
  assert (H : Forall plain [list_byte_of_string "firefox";
                            list_byte_of_string "--new-window"]).
  { repeat constructor; try discriminate;
      cbn; intros Hin;
      repeat (destruct Hin as [Hin|Hin]; [discriminate Hin|]); exact Hin. }
  split; [exact H|]. split; [reflexivity|].
  exact (read_cmdline_of_argv Sample.proc Sample.ascii_decode (PInt 200)
           [list_byte_of_string "firefox"; list_byte_of_string "--new-window"]
           H ltac:(discriminate) eq_refl).
Defined.

(** X6: A command line that is read is never the empty string (given that
    decoding non-empty bytes gives a non-empty string, as UTF-8 decoding
    with replacement does): the value is either null or a string with at
    least one character. *)
Theorem read_cmdline_is_not_empty
  (proc_cmdline : pyval -> result (list byte)) (decode : list byte -> string)
  (pid : pyval) (s : string) :
  (forall raw, raw <> [] -> decode raw <> EmptyString) ->
  read_cmdline proc_cmdline decode pid = Ok (Some s) ->
  s <> EmptyString.
Proof.
  intros Hdec. unfold read_cmdline.
  destruct (proc_cmdline pid) as [raw|e].
  - destruct (filter nonempty (split_nul raw)) as [|seg segs] eqn:E;
      [discriminate|].
    cbn [map nonempty]. intros [= <-].
    apply join_space_nonempty, Hdec.
    assert (Hin : In seg (filter nonempty (split_nul raw)))
      by (rewrite E; now left).
    apply filter_In in Hin as [_ Hseg]. now destruct seg.
  - destruct (is_FileNotFoundError e); [discriminate|].
    destruct (is_OSError e); discriminate.
Qed.

Lemma read_cmdline_is_not_empty_witness :
  (forall raw, raw <> [] -> Sample.ascii_decode raw <> EmptyString)
  /\ read_cmdline Sample.proc Sample.ascii_decode (PInt 100) = Ok (Some "foot")
  /\ "foot" <> EmptyString.
Proof.
  assert (H : forall raw, raw <> [] -> Sample.ascii_decode raw <> EmptyString).
  { intros [|b raw] Hne; [congruence|]. discriminate. }
  split; [exact H|]. split; [reflexivity|].
  exact (read_cmdline_is_not_empty Sample.proc Sample.ascii_decode (PInt 100)
           "foot" H eq_refl).
Defined.

(* ================================================================== *)
(** ** What saving and restoring leave alone *)

Module QuietFacts.

Local Open Scope py_scope.

Lemma keeps_files_bind {A B} (m : M A) (k : A -> M B) :
  keeps_files m -> (forall a, keeps_files (k a)) -> keeps_files (bind m k).
Proof.
  intros Hm Hk w. unfold bind. specialize (Hm w).
  destruct (m w) as [[a|e] w1]; cbn [snd] in *; [|exact Hm].
  now rewrite Hk.
Qed.

Lemma keeps_files_for_each {A} (body : A -> M unit) (items : list A) :
  (forall x, keeps_files (body x)) -> keeps_files (for_each items body).
Proof.
  intros Hbody. induction items as [|x items IH]; cbn [for_each].
  - now intros w.
  - apply keeps_files_bind; [apply Hbody | intros _; exact IH].
Qed.

Lemma keeps_files_cmd (h : host) (c : fstring) : keeps_files (swaymsg_cmd h c).
Proof. intros w. unfold swaymsg_cmd. now destruct (accepts h (sent w) c). Qed.

Lemma keeps_files_place (h : host) (available : pyset) (target : pyval * pyval) :
  keeps_files (place_workspace h available target).
Proof.
  destruct target as [name output]. unfold place_workspace.
  apply keeps_files_bind; [now intros w|]. intros missing.
  destruct missing; [now intros w|].
  apply keeps_files_bind; [apply keeps_files_cmd|]. intros _.
  destruct (truthy output); [apply keeps_files_cmd | now intros w].
Qed.

Lemma keeps_files_launch (h : host) (win : pyval) :
  keeps_files (launch_window h win).
Proof.
  unfold launch_window.
  apply keeps_files_bind; [now intros w|]. intros cmd.
  apply keeps_files_bind; [now intros w|]. intros ws.
  destruct (negb (truthy cmd) || negb (truthy ws)); [now intros w|].
  apply keeps_files_bind; [apply keeps_files_cmd|]. intros _.
  apply keeps_files_cmd.
Qed.

Lemma keeps_files_restore_state (h : host) (path : string) :
  keeps_files (restore_state h path).
Proof.
  unfold restore_state.
  apply keeps_files_bind; [now intros w|]. intros present.
  destruct (negb present); [now intros w|].
  apply keeps_files_bind; [now intros w|]. intros data.
  apply keeps_files_bind.
  - unfold restore_workspaces.
    apply keeps_files_bind; [now intros w|]. intros targets.
    apply keeps_files_bind; [now intros w|]. intros outputs.
    apply keeps_files_bind; [now intros w|]. intros available.
    apply keeps_files_for_each. intros t. apply keeps_files_place.
  - intros _. apply keeps_files_bind.
    + unfold launch_windows.
      apply keeps_files_bind; [now intros w|]. intros windows.
      apply keeps_files_for_each. intros win. apply keeps_files_launch.
    + intros _. now intros w.
Qed.

Lemma keeps_sent_bind {A B} (m : M A) (k : A -> M B) :
  keeps_sent m -> (forall a, keeps_sent (k a)) -> keeps_sent (bind m k).
Proof.
  intros Hm Hk w. unfold bind. specialize (Hm w).
  destruct (m w) as [[a|e] w1]; cbn [snd] in *; [|exact Hm].
  now rewrite Hk.
Qed.

Lemma keeps_sent_dump (h : host) (path : string) (payload : pyval) :
  keeps_sent (dump_json h path payload).
Proof. intros w. unfold dump_json. now destruct (write_text h path). Qed.

Lemma keeps_sent_save_state (h : host) (path : string) :
  keeps_sent (save_state h path).
Proof.
  unfold save_state.
  apply keeps_sent_bind; [now intros w|]. intros tree.
  apply keeps_sent_bind; [now intros w|]. intros workspaces.
  apply keeps_sent_bind; [now intros w|]. intros windows.
  apply keeps_sent_bind; [now intros w|]. intros _.
  apply keeps_sent_bind; [now intros w|]. intros items.
  apply keeps_sent_bind; [now intros w|]. intros records.
  apply keeps_sent_bind; [apply keeps_sent_dump|]. intros _.
  now intros w.
Qed.

End QuietFacts.
Import QuietFacts.

(** X7: Restoring never writes: whatever the snapshot, the compositor's answers
    and the outcome, the files are after [restore_state] what they were
    before.  When the state file does not exist nothing happens at all: the
    run ends with [SystemExit] before any query, command or message. *)
Theorem restore_state_writes_nothing (h : host) (path : string) (w : world) :
  files (snd (restore_state h path w)) = files w
  /\ (file_at (files w) path = None ->
      restore_state h path w = (Raise SystemExit, w)).
Proof.
  split; [apply keeps_files_restore_state|].
  intros Hmissing. unfold restore_state, bind, path_exists.
  now rewrite Hmissing.
Qed.

Lemma restore_state_writes_nothing_witness :
  file_at (files empty_world) "session.json" = None
  /\ restore_state Sample.desktop "session.json" empty_world
     = (Raise SystemExit, empty_world).
Proof.
  split; [reflexivity|].
  exact (proj2 (restore_state_writes_nothing
                  Sample.desktop "session.json" empty_world) eq_refl).
Defined.

(** X8: Saving sends no command to the compositor, and the file is the last
    thing it prepares: the files change only after the tree query, the
    workspace query, the walk, the creation of the directory and the
    projection of the workspaces have all succeeded.  When saving returns
    normally, the only change to the files is the snapshot under [path],
    which holds the time of the clock and the windows [collect_windows]
    returned for the tree the compositor replied. *)
Theorem save_state_writes_last (h : host) (path : string) (w : world) :
  sent (snd (save_state h path w)) = sent w
  /\ (files (snd (save_state h path w)) <> files w ->
      exists tree workspaces windows items records,
        reply h (sent w) "get_tree" = Ok tree
        /\ reply h (sent w) "get_workspaces" = Ok workspaces
        /\ collect_windows (proc_cmdline h) (decode h) tree = Ok windows
        /\ mkdir_parent h path = Ok tt
        /\ py_iter workspaces = Ok items
        /\ workspace_records items = Ok records)
  /\ (fst (save_state h path w) = Ok tt ->
      exists tree windows payload,
        reply h (sent w) "get_tree" = Ok tree
        /\ collect_windows (proc_cmdline h) (decode h) tree = Ok windows
        /\ files (snd (save_state h path w)) = (path, Ok payload) :: files w
        /\ field payload "saved_at" = PFloat (clock h)
        /\ field payload "windows" = PList windows).
Proof.
  split; [apply keeps_sent_save_state|].
  unfold save_state, bind, lift, swaymsg_json, dump_json, print.
  destruct (reply h (sent w) "get_tree") as [tree|e];
    [|split; [now intros [] | discriminate]].
  destruct (reply h (sent w) "get_workspaces") as [workspaces|e];
    [|split; [now intros [] | discriminate]].
  destruct (collect_windows (proc_cmdline h) (decode h) tree)
    as [windows|e] eqn:Ec; [|split; [now intros [] | discriminate]].
  destruct (mkdir_parent h path) as [[]|e];
    [|split; [now intros [] | discriminate]].
  destruct (py_iter workspaces) as [items|e] eqn:Ei;
    [|split; [now intros [] | discriminate]].
  destruct (workspace_records items) as [records|e] eqn:Er;
    [|split; [now intros [] | discriminate]].
  split.
  - intros _. exists tree, workspaces, windows, items, records.
    repeat split; try reflexivity; assumption.
  - destruct (write_text h path) as [[]|e]; [|discriminate].
    intros _. cbn [fst snd files]. exists tree, windows. eexists.
    repeat split; try reflexivity. exact Ec.
Qed.

Lemma save_state_writes_last_witness :
  fst (save_state Sample.desktop "session.json" empty_world) = Ok tt
  /\ exists tree windows payload,
      reply Sample.desktop [] "get_tree" = Ok tree
      /\ collect_windows Sample.proc Sample.ascii_decode tree = Ok windows
      /\ files (snd (save_state Sample.desktop "session.json" empty_world))
         = [("session.json", Ok payload)]
      /\ field payload "saved_at" = PFloat Sample.now
      /\ field payload "windows" = PList windows.
Proof.
  split; [reflexivity|].
  exact (proj2 (proj2 (save_state_writes_last
                         Sample.desktop "session.json" empty_world))
           eq_refl).
Defined.

(** When the compositor does not answer, nothing is written. *)
Example no_answer_no_file :
  save_state
    (mkHost (fun _ _ => Raise CalledProcessError) (fun _ _ => true)
            Sample.proc Sample.ascii_decode Sample.now
            (fun _ => Ok tt) (fun _ => Ok tt))
    "session.json" empty_world
  = (Raise CalledProcessError, empty_world).
Proof. reflexivity. Qed.


(* ================================================================== *)
(** ** More about restoring *)

Module RestorerMore.

Local Open Scope py_scope.

(** *** Commands of a given kind *)

Lemma sends_only_quiet (P : fstring -> Prop) {A} (m : M A) :
  (forall w, sent (snd (m w)) = sent w) -> sends_only P m.
Proof. intros Hq w. exists []. now rewrite Hq, app_nil_r. Qed.

Lemma sends_only_cmd (P : fstring -> Prop) (h : host) (c : fstring) :
  P c -> sends_only P (swaymsg_cmd h c).
Proof.
  intros Hc w. exists [c]. unfold swaymsg_cmd.
  destruct (accepts h (sent w) c); cbn [snd sent]; auto.
Qed.

Lemma sends_only_bind (P : fstring -> Prop) {A B} (m : M A) (k : A -> M B) :
  sends_only P m -> (forall a, sends_only P (k a)) -> sends_only P (bind m k).
Proof.
  intros Hm Hk w. unfold bind.
  destruct (Hm w) as (new1 & Hs1 & HP1).
  destruct (m w) as [[a|e] w1]; cbn [snd] in *; [|eauto].
  destruct (Hk a w1) as (new2 & Hs2 & HP2).
  exists (new1 ++ new2). rewrite Hs2, Hs1, app_assoc.
  split; [reflexivity | now apply Forall_app].
Qed.

Lemma sends_only_for_each (P : fstring -> Prop) {A} (body : A -> M unit)
  (items : list A) :
  (forall x, sends_only P (body x)) -> sends_only P (for_each items body).
Proof.
  intros Hbody. induction items as [|x items IH]; cbn [for_each].
  - now apply sends_only_quiet.
  - apply sends_only_bind; [apply Hbody | intros _; exact IH].
Qed.

Lemma sends_only_ext (P : fstring -> Prop) {A} (m m' : M A) :
  (forall w, m w = m' w) -> sends_only P m' -> sends_only P m.
Proof. intros Heq H w. rewrite Heq. apply H. Qed.

Lemma sends_only_place (h : host) (available : pyset) (target : pyval * pyval) :
  sends_only (placing available) (place_workspace h available target).
Proof.
  destruct target as [name output].
  assert (Hswitch : placing available (cmd_workspace name))
    by (left; now exists name).
  destruct (truthy output) eqn:Et.
  - destruct (hashable output) eqn:Eh.
    + destruct (existsb (py_eq output) available) eqn:Ep.
      * apply (sends_only_ext _ _
                 (swaymsg_cmd h (cmd_workspace name) ;;;
                  swaymsg_cmd h (cmd_move output))).
        { intros w. unfold place_workspace, set_mem, bind at 1, lift.
          now rewrite Et, Eh; cbn [rbind]; rewrite Ep. }
        apply sends_only_bind; [now apply sends_only_cmd|]. intros _.
        apply sends_only_cmd. right. now exists output.
      * apply (sends_only_ext _ _ (print (msg_skipping name output))).
        { intros w. unfold place_workspace, set_mem, bind at 1, lift.
          now rewrite Et, Eh; cbn [rbind]; rewrite Ep. }
        now apply sends_only_quiet.
    + apply (sends_only_ext _ _ (raise TypeError)).
      { intros w. unfold place_workspace, set_mem, bind at 1, lift.
        now rewrite Et, Eh. }
      now apply sends_only_quiet.
  - apply (sends_only_ext _ _ (swaymsg_cmd h (cmd_workspace name) ;;; ret tt)).
    { intros w. unfold place_workspace, bind at 1, lift. now rewrite Et. }
    apply sends_only_bind; [now apply sends_only_cmd|]. intros _.
    now apply sends_only_quiet.
Qed.

Lemma restore_workspaces_outputs (h : host) (data : pyval) (w : world) :
  sent (snd (restore_workspaces h data w)) = sent w
  \/ exists t outputs available,
       reply h (sent w) "get_outputs" = Ok outputs
       /\ available_of outputs = Ok available
       /\ restore_workspaces h data w
          = for_each t (place_workspace h available) w.
Proof.
  unfold restore_workspaces, bind, lift, swaymsg_json, available_of.
  destruct (workspace_targets data) as [t|e]; [|now left].
  destruct (reply h (sent w) "get_outputs") as [outputs|e]; [|now left].
  destruct (rbind (py_iter outputs) output_names) as [available|e] eqn:Ea;
    [|now left].
  right. exists t, outputs, available. now rewrite Ea.
Qed.

Lemma cmd_move_is_not_switch (name output : pyval) :
  cmd_move output <> cmd_workspace name.
Proof. unfold cmd_move, cmd_workspace. intros H. inversion H. Qed.

Lemma cmd_move_inj (o o' : pyval) : cmd_move o = cmd_move o' -> o = o'.
Proof. unfold cmd_move. now intros [= ->]. Qed.

End RestorerMore.
Import RestorerMore.

(** X10: Restoring never moves a workspace to an output that is not there:
    whatever the snapshot, every move command of phase 1 names an output
    that the compositor has just listed. *)
Theorem moves_go_to_present_outputs
  (h : host) (data : pyval) (w : world) (new : list fstring) (output : pyval) :
  sent (snd (restore_workspaces h data w)) = sent w ++ new ->
  In (cmd_move output) new ->
  exists outputs available,
    reply h (sent w) "get_outputs" = Ok outputs
    /\ available_of outputs = Ok available
    /\ existsb (py_eq output) available = true.
Proof.
  intros Hsent Hin.
  destruct (restore_workspaces_outputs h data w)
    as [Hquiet|(t & outputs & available & Hreply & Havail & Hrun)].
  - rewrite Hquiet in Hsent.
    rewrite <- (app_nil_r (sent w)) in Hsent at 1.
    apply app_inv_head in Hsent. subst new. destruct Hin.
  - exists outputs, available. repeat split; try assumption.
    rewrite Hrun in Hsent.
    destruct (sends_only_for_each (placing available)
                (place_workspace h available) t
                (sends_only_place h available) w) as (new' & Hs & HP).
    rewrite Hs in Hsent. apply app_inv_head in Hsent. subst new'.
    rewrite Forall_forall in HP.
    destruct (HP _ Hin) as [[name Habs]|(o & Heq & _ & Hpresent)].
    + now apply cmd_move_is_not_switch in Habs.
    + apply cmd_move_inj in Heq. now subst o.
Qed.

Lemma moves_go_to_present_outputs_witness :
  sent (snd (restore_workspaces Sample.desktop Sample.two_workspaces
               empty_world))
  = sent empty_world
    ++ [cmd_workspace (PStr "1"); cmd_move (PStr "DP-1");
        cmd_workspace (PStr "2"); cmd_move (PStr "HDMI-1")]
  /\ In (cmd_move (PStr "HDMI-1"))
       [cmd_workspace (PStr "1"); cmd_move (PStr "DP-1");
        cmd_workspace (PStr "2"); cmd_move (PStr "HDMI-1")]
  /\ exists outputs available,
      reply Sample.desktop (sent empty_world) "get_outputs" = Ok outputs
      /\ available_of outputs = Ok available
      /\ existsb (py_eq (PStr "HDMI-1")) available = true.
Proof.
  assert (Hin : In (cmd_move (PStr "HDMI-1"))
                  [cmd_workspace (PStr "1"); cmd_move (PStr "DP-1");
                   cmd_workspace (PStr "2"); cmd_move (PStr "HDMI-1")])
    by (right; right; right; now left).
  split; [reflexivity|]. split; [exact Hin|].
  exact (moves_go_to_present_outputs
           Sample.desktop Sample.two_workspaces empty_world _ _ eq_refl Hin).
Defined.

(* ================================================================== *)
(** ** More about the two phases *)

Module PhaseFacts.

Local Open Scope py_scope.

Section Phases.

Variable h : host.

Lemma within_launch (win : pyval) :
  within (launch_window h win) (relaunch win).
Proof.
  destruct (is_dict win) eqn:Ed.
  - now apply (within_exactly h), exactly_launch.
  - apply (within_ext _ (raise AttributeError)).
    + intros w. now destruct win.
    + apply within_raise.
Qed.

Lemma launch_windows_cases (data : pyval) (w : world) :
  sent (snd (launch_windows h data w)) = sent w
  \/ exists wins,
       windows_of data = Ok wins
       /\ launch_windows h data w = for_each wins (launch_window h) w.
Proof.
  destruct (windows_of data) as [wins|e] eqn:E.
  - right. exists wins. split; [reflexivity|]. now apply launch_windows_run.
  - left. unfold launch_windows, bind, lift. unfold windows_of in E.
    now rewrite E.
Qed.

Lemma cmd_exec_is_not_switch (name x : pyval) :
  cmd_workspace name <> cmd_exec x.
Proof. unfold cmd_workspace, cmd_exec. intros H. inversion H. Qed.

Lemma cmd_exec_is_not_move (output x : pyval) :
  cmd_move output <> cmd_exec x.
Proof. unfold cmd_move, cmd_exec. intros H. inversion H. Qed.

Lemma cmd_exec_inj (x y : pyval) : cmd_exec x = cmd_exec y -> x = y.
Proof. unfold cmd_exec. now intros [= ->]. Qed.

Lemma plan_exec_after_switch (wins : list pyval) :
  forall before x after,
    flat_map relaunch wins = before ++ cmd_exec x :: after ->
    exists before' win,
      In win wins
      /\ before = before' ++ [cmd_workspace (field win "workspace")]
      /\ field win "cmd" = x
      /\ truthy x = true
      /\ truthy (field win "workspace") = true.
Proof.
  induction wins as [|win wins IH]; intros before x after Heq.
  - now destruct before.
  - cbn [flat_map] in Heq. unfold relaunch at 1 in Heq.
    destruct (negb (truthy (field win "cmd"))
              || negb (truthy (field win "workspace"))) eqn:Eskip.
    + destruct (IH before x after Heq) as (b' & win' & Hin & H).
      exists b', win'. split; [now right | exact H].
    + apply orb_false_iff in Eskip as [Ec Ew].
      apply negb_false_iff in Ec, Ew.
      cbn [app] in Heq.
      destruct before as [|c1 before]; cbn [app] in Heq.
      { assert (Habs : cmd_workspace (field win "workspace") = cmd_exec x)
          by congruence.
        now apply cmd_exec_is_not_switch in Habs. }
      assert (Hc1 : c1 = cmd_workspace (field win "workspace")) by congruence.
      assert (Heq1 : cmd_exec (field win "cmd") :: flat_map relaunch wins
                     = before ++ cmd_exec x :: after) by congruence.
      clear Heq. subst c1.
      destruct before as [|c2 before]; cbn [app] in Heq1.
      { assert (Hx : cmd_exec (field win "cmd") = cmd_exec x) by congruence.
        apply cmd_exec_inj in Hx. subst x.
        exists [], win. repeat split; auto. now left. }
      assert (Hc2 : c2 = cmd_exec (field win "cmd")) by congruence.
      assert (Heq : flat_map relaunch wins = before ++ cmd_exec x :: after)
        by congruence.
      clear Heq1. subst c2.
      destruct (IH before x after Heq) as (b' & win' & Hin & -> & H).
      exists (cmd_workspace (field win "workspace")
              :: cmd_exec (field win "cmd") :: b'), win'.
      split; [now right|]. split; [reflexivity | exact H].
Qed.

Lemma placement_has_no_exec (available : pyset) (records : list pyval)
  (x : pyval) :
  ~ In (cmd_exec x) (flat_map (placement_of_record available) records).
Proof.
  intros Hin. apply in_flat_map in Hin as (r & _ & Hin).
  unfold placement_of_record, placement, target_of in Hin.
  destruct (named r); [|destruct Hin].
  destruct (truthy (field r "output")
            && negb (existsb (py_eq (field r "output")) available));
    [destruct Hin|].
  destruct Hin as [Habs|Hin]; [now apply cmd_exec_is_not_switch in Habs|].
  destruct (truthy (field r "output")); [|destruct Hin].
  destruct Hin as [Habs|[]]. now apply cmd_exec_is_not_move in Habs.
Qed.

(** *** The table of targets *)

Lemma table_set_key_in (t : table) (k v : pyval) (kv : pyval * pyval) :
  In kv (table_set t k v) ->
  fst kv = k \/ exists kv', In kv' t /\ fst kv' = fst kv.
Proof.
  induction t as [|[k' v'] t IH]; cbn [table_set].
  - intros [<-|[]]. now left.
  - destruct (py_eq k' k).
    + intros [<-|Hin]; right.
      * exists (k', v'). split; [now left | reflexivity].
      * exists kv. split; [now right | reflexivity].
    + intros [<-|Hin].
      * right. exists (k', v'). split; [now left | reflexivity].
      * destruct (IH Hin) as [Hk|(kv' & Hin' & Hk)]; [now left|].
        right. exists kv'. split; [now right | exact Hk].
Qed.

Lemma table_set_distinct (t : table) (k v : pyval) :
  distinct_keys t -> distinct_keys (table_set t k v).
Proof.
  induction t as [|[k' v'] t IH]; cbn [table_set distinct_keys].
  - intros _. split; [intros kv [] | exact I].
  - intros [Hhead Hrest]. destruct (py_eq k' k) eqn:E; cbn [distinct_keys].
    + now split.
    + split; [|now apply IH].
      intros kv Hin.
      destruct (table_set_key_in t k v kv Hin) as [->|(kv' & Hin' & <-)];
        [exact E | now apply Hhead].
Qed.

Lemma table_set_Forall (Qk Qv : pyval -> Prop) (t : table) (k v : pyval) :
  Forall (fun kv => Qk (fst kv) /\ Qv (snd kv)) t ->
  Qk k -> Qv v ->
  Forall (fun kv => Qk (fst kv) /\ Qv (snd kv)) (table_set t k v).
Proof.
  intros Ht Hk Hv. induction Ht as [|[k' v'] t [Hk' Hv'] Ht IH];
    cbn [table_set].
  - now repeat constructor.
  - destruct (py_eq k' k); constructor; auto.
Qed.

Lemma targets_invariant (all : list pyval) (records : list pyval) :
  forall t t',
    incl records all ->
    workspace_targets_from records t = Ok t' ->
    distinct_keys t ->
    Forall (fun kv => key_from all (fst kv) /\ value_from all (snd kv)) t ->
    distinct_keys t'
    /\ Forall (fun kv => key_from all (fst kv) /\ value_from all (snd kv)) t'.
Proof.
  induction records as [|r rest IH]; intros t t' Hincl Hbuild Hdist Hall.
  - injection Hbuild as <-. now split.
  - assert (Hr : In r all) by (apply Hincl; now left).
    assert (Hrest : incl rest all) by (intros x Hx; apply Hincl; now right).
    cbn [workspace_targets_from] in Hbuild.
    destruct r as [| | | | | |d]; try discriminate.
    cbn [py_get rbind] in Hbuild.
    destruct (truthy (get d "name")) eqn:Et; [|now apply (IH t)].
    unfold table_store in Hbuild.
    destruct (hashable (get d "name")) eqn:Eh; [|discriminate].
    cbn [rbind] in Hbuild.
    apply (IH _ _ Hrest Hbuild).
    + now apply table_set_distinct.
    + apply table_set_Forall; [exact Hall | |].
      * repeat split; try assumption. now exists (PDict d).
      * now exists (PDict d).
Qed.

(** *** What is printed *)

Hypothesis accepted : forall history c, accepts h history c = true.

Lemma announces_ext (m m' : M unit) (lines : list fstring) :
  (forall w, m w = m' w) -> announces m' lines -> announces m lines.
Proof. intros Heq H w. rewrite Heq. apply H. Qed.

Lemma announces_ret : announces (ret tt) [].
Proof. intros w. cbn. now rewrite app_nil_r. Qed.

Lemma announces_print (line : fstring) : announces (print line) [line].
Proof. now intros w. Qed.

Lemma announces_cmd (c : fstring) : announces (swaymsg_cmd h c) [].
Proof.
  intros w. unfold swaymsg_cmd. rewrite accepted. cbn.
  now rewrite app_nil_r.
Qed.

Lemma announces_seq (m1 m2 : M unit) (l1 l2 : list fstring) :
  announces m1 l1 -> announces m2 l2 -> announces (m1 ;;; m2) (l1 ++ l2).
Proof.
  intros H1 H2 w. unfold bind. destruct (H1 w) as [Hr Hp].
  destruct (m1 w) as [r1 w1]. cbn [fst snd] in *. subst r1.
  destruct (H2 w1) as [Hr2 Hp2]. now rewrite Hr2, Hp2, Hp, app_assoc.
Qed.

Lemma announces_for_each {A} (body : A -> M unit) (lines : A -> list fstring)
  (items : list A) :
  Forall (fun x => announces (body x) (lines x)) items ->
  announces (for_each items body) (flat_map lines items).
Proof.
  induction 1 as [|x items Hx _ IH]; cbn [for_each flat_map].
  - apply announces_ret.
  - now apply announces_seq.
Qed.

Lemma announces_place (available : pyset) (name output : pyval) :
  hashable output = true ->
  announces (place_workspace h available (name, output))
            (if truthy output && negb (existsb (py_eq output) available)
             then [msg_skipping name output] else []).
Proof.
  intros Eh.
  destruct (truthy output) eqn:Et; cbn [andb].
  - destruct (existsb (py_eq output) available) eqn:Ep; cbn [negb].
    + apply (announces_ext _
               (swaymsg_cmd h (cmd_workspace name) ;;;
                swaymsg_cmd h (cmd_move output))).
      { intros w. unfold place_workspace, set_mem, bind at 1, lift.
        now rewrite Et, Eh; cbn [rbind]; rewrite Ep. }
      apply (announces_seq _ _ [] []); apply announces_cmd.
    + apply (announces_ext _ (print (msg_skipping name output))).
      { intros w. unfold place_workspace, set_mem, bind at 1, lift.
        now rewrite Et, Eh; cbn [rbind]; rewrite Ep. }
      apply announces_print.
  - apply (announces_ext _ (swaymsg_cmd h (cmd_workspace name) ;;; ret tt)).
    { intros w. unfold place_workspace, bind at 1, lift. now rewrite Et. }
    apply (announces_seq _ _ [] []); [apply announces_cmd | apply announces_ret].
Qed.

End Phases.

Lemma notices_of_targets (available : pyset) (records : list pyval) :
  flat_map (fun t : pyval * pyval =>
              if truthy (snd t) && negb (existsb (py_eq (snd t)) available)
              then [msg_skipping (fst t) (snd t)] else [])
           (map target_of (filter named records))
  = flat_map (notice_of_record available) records.
Proof.
  induction records as [|r rest IH]; [reflexivity|].
  cbn [filter flat_map]. unfold notice_of_record at 1.
  destruct (named r); cbn [map flat_map andb fst snd target_of];
    now rewrite IH.
Qed.

End PhaseFacts.
Import PhaseFacts.

(** X11: Whatever the snapshot, a command that executes a window's command line
    comes immediately after the switch to the workspace recorded for that
    same window, and neither field of that window record is empty: a window
    is never launched on a workspace other than its own. *)
Theorem every_exec_follows_its_switch
  (h : host) (data : pyval) (w : world) (new before after : list fstring)
  (x : pyval) :
  sent (snd (launch_windows h data w)) = sent w ++ new ->
  new = before ++ cmd_exec x :: after ->
  exists wins win before',
    windows_of data = Ok wins
    /\ In win wins
    /\ field win "cmd" = x
    /\ truthy x = true
    /\ truthy (field win "workspace") = true
    /\ before = before' ++ [cmd_workspace (field win "workspace")].
Proof.
  intros Hsent Hnew.
  destruct (launch_windows_cases h data w) as [Hquiet|(wins & Hwins & Hrun)].
  - rewrite Hquiet in Hsent.
    rewrite <- (app_nil_r (sent w)) in Hsent at 1.
    apply app_inv_head in Hsent. subst new. now destruct before.
  - rewrite Hrun in Hsent.
    destruct (within_for_each (launch_window h) relaunch wins
                (within_launch h) w) as (new' & rest & Hs & Hplan & _).
    rewrite Hs in Hsent. apply app_inv_head in Hsent. subst new'.
    rewrite Hnew, <- app_assoc in Hplan. cbn [app] in Hplan.
    destruct (plan_exec_after_switch wins before x (after ++ rest) Hplan)
      as (b' & win & Hin & Hb & Hx & Htx & Htw).
    exists wins, win, b'. repeat split; assumption.
Qed.

Lemma every_exec_follows_its_switch_witness :
  sent (snd (launch_windows Sample.desktop Sample.two_workspaces empty_world))
  = sent empty_world ++ [cmd_workspace (PStr "1"); cmd_exec (PStr "foot")]
  /\ exists wins win before',
      windows_of Sample.two_workspaces = Ok wins
      /\ In win wins
      /\ field win "cmd" = PStr "foot"
      /\ truthy (PStr "foot") = true
      /\ truthy (field win "workspace") = true
      /\ [cmd_workspace (PStr "1")]
         = before' ++ [cmd_workspace (field win "workspace")].
Proof.
  split; [reflexivity|].
  exact (every_exec_follows_its_switch
           Sample.desktop Sample.two_workspaces empty_world
           [cmd_workspace (PStr "1"); cmd_exec (PStr "foot")]
           [cmd_workspace (PStr "1")] [] (PStr "foot") eq_refl eq_refl).
Defined.

(** X12: The table of workspace targets built from a snapshot never holds two
    equal names; every name in it is the non-empty, hashable name of a
    record of the snapshot and every output in it is the output recorded by
    a named record. *)
Theorem targets_are_distinct_and_recorded
  (data : pyval) (records : list pyval) (t : table) :
  workspaces_of data = Ok records ->
  workspace_targets data = Ok t ->
  distinct_keys t
  /\ Forall (fun kv => key_from records (fst kv) /\ value_from records (snd kv))
            t.
Proof.
  intros Hrecords Ht.
  rewrite (workspace_targets_of data records Hrecords) in Ht.
  apply (targets_invariant records records [] t);
    [apply incl_refl | exact Ht | exact I | constructor].
Qed.

Lemma targets_are_distinct_and_recorded_witness :
  workspaces_of Sample.same_name_twice
  = Ok [Sample.saved_workspace (PStr "1") (PStr "DP-1");
        Sample.saved_workspace (PStr "2") (PStr "DP-1");
        Sample.saved_workspace (PStr "1") (PStr "HDMI-1")]
  /\ workspace_targets Sample.same_name_twice
     = Ok [(PStr "1", PStr "HDMI-1"); (PStr "2", PStr "DP-1")]
  /\ distinct_keys [(PStr "1", PStr "HDMI-1"); (PStr "2", PStr "DP-1")].
Proof.
  split; [reflexivity|]. split; [reflexivity|].
  exact (proj1 (targets_are_distinct_and_recorded
                  Sample.same_name_twice _ _ eq_refl eq_refl)).
Defined.

(** X13: With well-formed records of distinct names and a compositor that
    accepts every command, phase 1 returns normally and prints one notice
    for every named record whose output is recorded and not present, in
    snapshot order, and nothing else. *)
Theorem one_notice_per_skipped_workspace
  (h : host) (data : pyval) (records : list pyval) (outputs : pyval)
  (available : pyset) (w : world) :
  workspaces_of data = Ok records ->
  forallb record_ok records = true ->
  distinct_names records = true ->
  reply h (sent w) "get_outputs" = Ok outputs ->
  available_of outputs = Ok available ->
  (forall history c, accepts h history c = true) ->
  fst (restore_workspaces h data w) = Ok tt
  /\ printed (snd (restore_workspaces h data w))
     = printed w ++ flat_map (notice_of_record available) records.
Proof.
  intros Hrecords Hok Hdist Hreply Havail Hacc.
  assert (Ht : workspace_targets data
               = Ok (map target_of (filter named records))).
  { rewrite (workspace_targets_of _ _ Hrecords).
    apply (targets_of_distinct records [] Hok Hdist). intros kv r []. }
  rewrite (restore_workspaces_run h data outputs _ available w Ht Hreply Havail).
  rewrite <- notices_of_targets.
  apply (announces_for_each (place_workspace h available)
           (fun t : pyval * pyval =>
              if truthy (snd t) && negb (existsb (py_eq (snd t)) available)
              then [msg_skipping (fst t) (snd t)] else [])).
  apply Forall_forall. intros [n o] Hin.
  apply (announces_place h Hacc available n o).
  apply in_map_iff in Hin as (r & Heq & Hin).
  apply filter_In in Hin as [Hin _].
  rewrite forallb_forall in Hok. specialize (Hok r Hin).
  destruct (record_ok_dict r Hok) as (d & -> & _ & Ho).
  now inversion Heq; subst.
Qed.

Lemma one_notice_per_skipped_workspace_witness :
  fst (restore_workspaces Sample.desktop Sample.lost_output empty_world)
  = Ok tt
  /\ printed (snd (restore_workspaces Sample.desktop Sample.lost_output
                    empty_world))
     = printed empty_world
       ++ flat_map (notice_of_record [PStr "DP-1"; PStr "HDMI-1"])
            [Sample.saved_workspace (PStr "9") (PStr "HDMI-2")].
Proof.
  apply (one_notice_per_skipped_workspace
           Sample.desktop Sample.lost_output
           [Sample.saved_workspace (PStr "9") (PStr "HDMI-2")]
           Sample.outputs_reply [PStr "DP-1"; PStr "HDMI-1"] empty_world);
    reflexivity.
Defined.

(* ================================================================== *)
(** ** The whole restore *)

Module WholeFacts.

Local Open Scope py_scope.

Lemma bind_at {A B} (m m' : M A) (k : A -> M B) (w : world) :
  m w = m' w -> bind m k w = bind m' k w.
Proof. intros H. unfold bind. now rewrite H. Qed.

Lemma bind_cont {A B} (m : M A) (k k' : A -> M B) (w : world) :
  (forall a w1, k a w1 = k' a w1) -> bind m k w = bind m k' w.
Proof. intros H. unfold bind. destruct (m w) as [[a|e] w1]; auto. Qed.

Lemma restore_state_plan (h : host) (path : string) (data : pyval)
  (records wins : list pyval) (outputs : pyval) (available : pyset)
  (w : world) :
  file_at (files w) path = Some (Ok data) ->
  workspaces_of data = Ok records ->
  forallb record_ok records = true ->
  distinct_names records = true ->
  reply h (sent w) "get_outputs" = Ok outputs ->
  available_of outputs = Ok available ->
  windows_of data = Ok wins ->
  forallb is_dict wins = true ->
  fst (restore_state h path w)
  = plan_result h (sent w)
      (flat_map (placement_of_record available) records
       ++ flat_map relaunch wins)
  /\ sent (snd (restore_state h path w))
     = sent w
       ++ issued h (sent w)
            (flat_map (placement_of_record available) records
             ++ flat_map relaunch wins).
Proof.
  intros Hfile Hrecords Hok Hdist Hreply Havail Hwins Hdicts.
  assert (Ht : workspace_targets data
               = Ok (map target_of (filter named records))).
  { rewrite (workspace_targets_of _ _ Hrecords).
    apply (targets_of_distinct records [] Hok Hdist). intros kv r []. }
  rewrite (restore_state_run h path data w Hfile).
  rewrite (bind_at _ _ _ w
             (restore_workspaces_run h data outputs _ available w
                Ht Hreply Havail)).
  rewrite <- placement_of_targets,
    <- (app_nil_r (flat_map relaunch wins)).
  apply exactly_run, exactly_seq.
  - apply exactly_for_each, Forall_forall. intros [n o] Hin.
    apply exactly_place.
    apply in_map_iff in Hin as (r & Heq & Hin).
    apply filter_In in Hin as [Hin _].
    rewrite forallb_forall in Hok. specialize (Hok r Hin).
    destruct (record_ok_dict r Hok) as (d & -> & _ & Ho).
    now inversion Heq; subst.
  - apply exactly_seq; [|apply exactly_print].
    now apply exactly_launch_windows.
Qed.

Lemma relaunch_expected (proc_cmdline : pyval -> result (list byte))
  (decode : list byte -> string) (nodes : list (list pyval * pyval)) :
  flat_map relaunch (map (expected_record proc_cmdline decode) nodes)
  = flat_map (relaunch_of_node proc_cmdline decode) nodes.
Proof.
  induction nodes as [|[a n] nodes IH]; [reflexivity|].
  cbn [map flat_map]. now rewrite IH.
Qed.

Lemma workspace_targets_from_same (rs rs' : list pyval) :
  Forall2 same_target rs rs' ->
  forall t, workspace_targets_from rs t = workspace_targets_from rs' t.
Proof.
  induction 1 as [|r r' rs rs' [Hn Ho] _ IH]; intros t; [reflexivity|].
  cbn [workspace_targets_from]. rewrite Hn, Ho.
  destruct (py_get r' "name") as [name|e]; [|reflexivity].
  cbn [rbind]. destruct (truthy name); [|apply IH].
  destruct (py_get r' "output") as [output|e]; [|reflexivity].
  cbn [rbind]. destruct (table_store t name output); [apply IH | reflexivity].
Qed.

Lemma launch_all_same (h : host) (wins wins' : list pyval) :
  Forall2 same_launch wins wins' ->
  forall w, for_each wins (launch_window h) w
            = for_each wins' (launch_window h) w.
Proof.
  induction 1 as [|win win' wins wins' [Hc Hw] _ IH]; intros w;
    [reflexivity|].
  cbn [for_each].
  assert (Hsame : launch_window h win w = launch_window h win' w).
  { unfold launch_window, bind, lift. now rewrite Hc, Hw. }
  rewrite (bind_at _ _ _ w Hsame). apply bind_cont. intros _. apply IH.
Qed.

End WholeFacts.
Import WholeFacts.

(** X14: With a well-formed snapshot, [restore_state] issues the placements of
    all workspace records, then the launches of all window records, each in
    snapshot order, up to the first rejected command; so a window is
    launched only after every placement command has been accepted. *)
Theorem placements_come_before_launches
  (h : host) (path : string) (data : pyval) (records wins : list pyval)
  (outputs : pyval) (available : pyset) (w : world) :
  file_at (files w) path = Some (Ok data) ->
  workspaces_of data = Ok records ->
  forallb record_ok records = true ->
  distinct_names records = true ->
  reply h (sent w) "get_outputs" = Ok outputs ->
  available_of outputs = Ok available ->
  windows_of data = Ok wins ->
  forallb is_dict wins = true ->
  let placing_plan := flat_map (placement_of_record available) records in
  let launching_plan := flat_map relaunch wins in
  fst (restore_state h path w)
  = plan_result h (sent w) (placing_plan ++ launching_plan)
  /\ sent (snd (restore_state h path w))
     = sent w ++ issued h (sent w) (placing_plan ++ launching_plan)
  /\ forall new x,
      sent (snd (restore_state h path w)) = sent w ++ new ->
      In (cmd_exec x) new ->
      all_accepted h (sent w) placing_plan = true.
Proof.
  intros Hfile Hrecords Hok Hdist Hreply Havail Hwins Hdicts
    placing_plan launching_plan.
  destruct (restore_state_plan h path data records wins outputs available w
              Hfile Hrecords Hok Hdist Hreply Havail Hwins Hdicts)
    as [Hr Hs].
  fold placing_plan launching_plan in Hr, Hs.
  split; [exact Hr|]. split; [exact Hs|].
  intros new x Hnew Hin. rewrite Hs in Hnew.
  apply app_inv_head in Hnew. subst new.
  rewrite issued_app in Hin.
  destruct (all_accepted h (sent w) placing_plan) eqn:E; [reflexivity|].
  rewrite app_nil_r in Hin.
  destruct (issued_prefix h placing_plan (sent w)) as [rest Hrest].
  exfalso. apply (placement_has_no_exec available records x).
  fold placing_plan. rewrite Hrest. apply in_or_app. now left.
Qed.

Lemma placements_come_before_launches_witness :
  let w := Sample.on_disk "session.json" Sample.two_workspaces in
  fst (restore_state (Sample.flaky 1) "session.json" w)
  = Raise CalledProcessError
  /\ sent (snd (restore_state (Sample.flaky 1) "session.json" w))
     = [cmd_workspace (PStr "1"); cmd_move (PStr "DP-1")].
Proof.
  intros w.
  destruct (placements_come_before_launches
              (Sample.flaky 1) "session.json" Sample.two_workspaces
              [Sample.saved_workspace (PStr "1") (PStr "DP-1");
               Sample.saved_workspace (PStr "2") (PStr "HDMI-1")]
              [Sample.saved_window (PStr "1") (PStr "foot")]
              Sample.outputs_reply [PStr "DP-1"; PStr "HDMI-1"] w
              eq_refl eq_refl eq_refl eq_refl eq_refl eq_refl eq_refl eq_refl)
    as (Hr & Hs & _).
  split; [exact Hr | exact Hs].
Defined.

(** X15: Restoring reads only the name and the output of a workspace record and
    only the command and the workspace of a window record: two snapshots
    that agree on these make both phases behave the same, so the focused
    flag, the time of the snapshot and the other window fields are never
    used. *)
Theorem restore_reads_four_fields
  (h : host) (data data' : pyval) (records records' wins wins' : list pyval) :
  workspaces_of data = Ok records ->
  workspaces_of data' = Ok records' ->
  Forall2 same_target records records' ->
  windows_of data = Ok wins ->
  windows_of data' = Ok wins' ->
  Forall2 same_launch wins wins' ->
  forall w,
    restore_workspaces h data w = restore_workspaces h data' w
    /\ launch_windows h data w = launch_windows h data' w.
Proof.
  intros Hr Hr' Hsame Hw Hw' Hlaunch w. split.
  - unfold restore_workspaces.
    rewrite (workspace_targets_of data records Hr),
      (workspace_targets_of data' records' Hr'),
      (workspace_targets_from_same records records' Hsame).
    reflexivity.
  - rewrite (launch_windows_run h data wins w Hw),
      (launch_windows_run h data' wins' w Hw').
    now apply launch_all_same.
Qed.

Lemma restore_reads_four_fields_witness :
  let data' :=
    PDict [("workspaces",
            PList [PDict [("name", PStr "1"); ("output", PStr "DP-1");
                          ("focused", PBool true)];
                   PDict [("output", PStr "HDMI-1"); ("name", PStr "2")]]);
           ("windows",
            PList [PDict [("cmd", PStr "foot"); ("workspace", PStr "1");
                          ("pid", PInt 7)]])] in
  restore_workspaces Sample.desktop Sample.two_workspaces empty_world
  = restore_workspaces Sample.desktop data' empty_world
  /\ launch_windows Sample.desktop Sample.two_workspaces empty_world
     = launch_windows Sample.desktop data' empty_world.
Proof.
  intros data'.
  eapply (restore_reads_four_fields Sample.desktop Sample.two_workspaces data');
    [reflexivity | reflexivity | | reflexivity | reflexivity | ];
    repeat constructor.
Defined.

(** X16: Saving a session and restoring the snapshot: after the placements, the
    restore launches the windows of the saved tree in traversal order, each
    by a switch to the workspace it was found under and the execution of
    the command line read for its process; a window whose process could not
    be read, or that was under no named workspace, is not launched. *)
Theorem save_then_restore_relaunches_windows
  (h1 h2 : host) (path : string) (w : world) (tree workspaces : pyval)
  (items : list pyval) (outputs : pyval) (available : pyset) :
  reply h1 (sent w) "get_tree" = Ok tree ->
  reply h1 (sent w) "get_workspaces" = Ok workspaces ->
  scene_ok (proc_cmdline h1) (decode h1) tree = true ->
  py_iter workspaces = Ok items ->
  forallb record_ok items = true ->
  distinct_names items = true ->
  mkdir_parent h1 path = Ok tt ->
  write_text h1 path = Ok tt ->
  reply h2 (sent w) "get_outputs" = Ok outputs ->
  available_of outputs = Ok available ->
  (forall history c, accepts h2 history c = true) ->
  let saved := save_state h1 path w in
  let restored := restore_state h2 path (snd saved) in
  fst restored = Ok tt
  /\ sent (snd restored)
     = sent w
       ++ flat_map (placement_of_record available) items
       ++ flat_map (relaunch_of_node (proc_cmdline h1) (decode h1))
            (window_nodes tree).
Proof.
  intros Htree Hws Hscene Hiter Hrecs Hdist Hmk Hwr Hreply Havail Hacc
    saved restored.
  destruct (projected_ok items Hrecs) as [Hpok Hdicts].
  pose proof (save_state_run h1 path w tree workspaces items
                Htree Hws Hscene Hmk Hiter Hdicts Hwr) as Hsave.
  set (wins := map (expected_record (proc_cmdline h1) (decode h1))
                   (window_nodes tree)) in Hsave.
  set (payload := payload_of (clock h1) (map projected items) wins) in Hsave.
  assert (Hsent : sent (snd saved) = sent w)
    by (subst saved; now rewrite Hsave).
  assert (Hfile : file_at (files (snd saved)) path = Some (Ok payload)).
  { subst saved. rewrite Hsave. cbn [snd files file_at].
    now rewrite String.eqb_refl. }
  assert (Hdist' : distinct_names (map projected items) = true)
    by now rewrite projected_distinct.
  assert (Hreply' : reply h2 (sent (snd saved)) "get_outputs" = Ok outputs)
    by now rewrite Hsent.
  destruct (restore_state_plan h2 path payload (map projected items) wins
              outputs available (snd saved)
              Hfile eq_refl Hpok Hdist' Hreply' Havail eq_refl
              (expected_are_dicts _ _ _)) as [Hr Hs].
  fold restored in Hr, Hs.
  unfold plan_result in Hr.
  rewrite (all_accepted_always h2 _ Hacc) in Hr.
  rewrite (all_accepted_issued h2 _ _ (all_accepted_always h2 _ Hacc _)) in Hs.
  split; [exact Hr|].
  rewrite Hs, Hsent, projected_placement. unfold wins.
  now rewrite relaunch_expected.
Qed.

Lemma save_then_restore_relaunches_windows_witness :
  let saved := save_state Sample.desktop "session.json" empty_world in
  let restored := restore_state Sample.desktop "session.json" (snd saved) in
  fst restored = Ok tt
  /\ sent (snd restored)
     = sent empty_world
       ++ flat_map (placement_of_record [PStr "DP-1"; PStr "HDMI-1"])
            [Sample.live_workspace "1" "DP-1" true;
             Sample.live_workspace "2" "HDMI-1" false]
       ++ flat_map (relaunch_of_node Sample.proc Sample.ascii_decode)
            (window_nodes Sample.two_outputs).
Proof.
  apply (save_then_restore_relaunches_windows
           Sample.desktop Sample.desktop "session.json" empty_world
           Sample.two_outputs Sample.workspaces_reply
           [Sample.live_workspace "1" "DP-1" true;
            Sample.live_workspace "2" "HDMI-1" false]
           Sample.outputs_reply [PStr "DP-1"; PStr "HDMI-1"]);
    reflexivity.
Defined.

(* ================================================================== *)
(** ** Reading [/proc] through [open] *)

Module ProcfsFacts.

Lemma has_nul_app (a b : string) :
  has_nul (a ++ b) = has_nul a || has_nul b.
Proof.
  induction a as [|c a IH]; [reflexivity|].
  cbn [append has_nul]. now rewrite IH, orb_assoc.
Qed.

Lemma has_nul_digits (d : Decimal.uint) :
  has_nul (NilEmpty.string_of_uint d) = false.
Proof. induction d; cbn [NilEmpty.string_of_uint has_nul]; auto. Qed.

Lemma has_nul_decimal (z : Z) : has_nul (decimal z) = false.
Proof.
  unfold decimal, NilZero.string_of_int, NilZero.string_of_uint.
  destruct (Z.to_int z) as [d|d]; destruct d;
    cbn [NilEmpty.string_of_uint has_nul]; rewrite ?has_nul_digits;
    reflexivity.
Qed.

(** The path of an integer process identifier holds no NUL character. *)
Lemma record_path_has_no_nul (z : Z) : has_nul (record_path z) = false.
Proof. unfold record_path. now rewrite !has_nul_app, has_nul_decimal. Qed.

Lemma proc_read_int (repr : pyval -> result string) (limit : nat)
  (os : string -> answer) (z : Z) :
  printable limit z = true ->
  proc_read repr limit os (PInt z)
  = match os (record_path z) with
    | Bytes raw => Ok raw
    | Fault f => Raise (os_error f)
    end.
Proof.
  intros Hp. unfold proc_read, cmdline_path. cbn [format].
  unfold str_of_int. unfold printable in Hp. rewrite Hp. cbn [rbind].
  fold (record_path z). unfold open_read.
  now rewrite record_path_has_no_nul.
Qed.

Lemma os_error_is_OSError (f : fault) : is_OSError (os_error f) = true.
Proof. now destruct f. Qed.

Lemma proc_read_int_fault (repr : pyval -> result string) (limit : nat)
  (os : string -> answer) (z : Z) (e : exn) :
  printable limit z = true ->
  proc_read repr limit os (PInt z) = Raise e -> is_OSError e = true.
Proof.
  intros Hp. rewrite (proc_read_int _ _ _ _ Hp).
  destruct (os _) as [raw|f]; [discriminate|].
  intros [= <-]. apply os_error_is_OSError.
Qed.


(** *** Cutting a record at its NUL bytes *)



(** Every content is a record: nothing is left out by describing the
    content through its fields. *)
Lemma every_content_is_a_record (raw : list byte) :
  exists fields rest,
    Forall nul_free fields /\ nul_free rest /\ raw = record_of fields rest.
Proof.
  induction raw as [|b raw (fields & rest & Hf & Hr & ->)].
  - exists [], []. repeat split; [constructor | intros []].
  - destruct (Byte.byte_eq_dec b Init.Byte.x00) as [->|Hb].
    + exists ([] :: fields), rest.
      repeat split; [constructor; [intros [] | exact Hf] | exact Hr].
    + destruct fields as [|f fields].
      * exists [], (b :: rest). repeat split; [constructor|].
        intros [Heq|Hin]; [now apply Hb | now apply Hr].
      * exists ((b :: f) :: fields), rest.
        apply Forall_cons_iff in Hf as [Hf Hfs].
        repeat split; [constructor; [|exact Hfs] | exact Hr].
        intros [Heq|Hin]; [now apply Hb | now apply Hf].
Qed.


End ProcfsFacts.
Import ProcfsFacts.




Example nul_pid_evaluated :
  read_cmdline Machine.reader Sample.ascii_decode Machine.nul_pid
  = Raise ValueError.
Proof. reflexivity. Qed.

(** The walker hands [read_cmdline] whatever the tree holds under
    ["pid"], so the exception reaches the caller of [collect_windows]. *)
Example nul_pid_stops_the_walk :
  collect_windows Machine.reader Sample.ascii_decode Machine.nul_pid_tree
  = Raise ValueError.
Proof. reflexivity. Qed.

Example read_cmdline_refused :
  read_cmdline Machine.reader Sample.ascii_decode (PInt 300) = Ok None.
Proof. reflexivity. Qed.

Example read_cmdline_empty_record :
  read_cmdline (proc_read Machine.no_repr Machine.max_digits
                  (fun _ => Bytes []))
    Sample.ascii_decode (PInt 1)
  = Ok None.
Proof. reflexivity. Qed.

(** An integer too long for the interpreter to convert to text is refused
    like the NUL character; no process has such an identifier. *)
Example huge_pid_evaluated :
  read_cmdline (proc_read Machine.no_repr 640 Machine.procfs)
    Sample.ascii_decode (PInt (10 ^ 640))
  = Raise ValueError.
Proof. vm_compute. reflexivity. Qed.

(** X2: What [/proc] holds never decides whether the walk returns: when
    [collect_windows] returns for a tree whose windows have integer
    process identifiers, it returns for that tree whatever the operating
    system answers, with as many records. *)
Theorem unreadable_processes_do_not_stop_the_walk
  (repr : pyval -> result string) (int_max_str_digits : nat)
  (os os' : string -> answer)
  (decode decode' : list byte -> string) (tree : pyval)
  (windows : list pyval) :
  collect_windows (proc_read repr int_max_str_digits os) decode tree
  = Ok windows ->
  forallb (fun an => is_pid int_max_str_digits (field (snd an) "pid"))
          (window_nodes tree) = true ->
  exists windows',
    collect_windows (proc_read repr int_max_str_digits os') decode' tree
    = Ok windows'
    /\ List.length windows' = List.length windows.
Proof.
  intros Hrun Hint.
  apply collect_windows_spec in Hrun as [Hok ->].
  assert (Hok' : scene_ok (proc_read repr int_max_str_digits os') decode' tree
                 = true).
  { unfold scene_ok in *. rewrite forallb_forall in *.
    intros [a n] Hin. specialize (Hok (a, n) Hin). cbn [snd] in *.
    destruct n as [| | | | | |d]; try discriminate.
    unfold node_ok in *.
    destruct (is_window (PDict d)) eqn:Ew; [|exact Hok].
    apply andb_prop in Hok as [Hw Hnodes].
    apply andb_prop in Hw as [Hprops _].
    rewrite Hprops, Hnodes, andb_true_r. cbn [andb].
    assert (Hpid : is_pid int_max_str_digits (get d "pid") = true).
    { apply (Hint (a, PDict d)). unfold window_nodes.
      apply filter_In. now split. }
    destruct (get d "pid") as [| |z| | | |]; try discriminate.
    apply read_cmdline_ok. intros e. now apply proc_read_int_fault. }
  eexists. split; [now apply collect_windows_returns|].
  now rewrite !length_map.
Qed.

Lemma unreadable_processes_do_not_stop_the_walk_witness :
  collect_windows Machine.reader Sample.ascii_decode Sample.two_outputs
  = Ok [window_record (PStr "1") (PStr "DP-1") (PInt 100) PNone (PStr "term")
          PNone (PStr "foot") (PList []);
        window_record (PStr "2") (PStr "HDMI-1") (PInt 200) PNone (PStr "web")
          PNone (PStr "firefox --new-window") (PList [])]
  /\ forallb (fun an => is_pid Machine.max_digits (field (snd an) "pid"))
             (window_nodes Sample.two_outputs) = true
  /\ exists windows',
      collect_windows
        (proc_read Machine.no_repr Machine.max_digits Machine.procfs_later)
        Sample.ascii_decode Sample.two_outputs = Ok windows'
      /\ List.length windows' = 2.
Proof.
  split; [reflexivity|]. split; [reflexivity|].
  exact (unreadable_processes_do_not_stop_the_walk
           Machine.no_repr Machine.max_digits Machine.procfs
           Machine.procfs_later
           Sample.ascii_decode Sample.ascii_decode Sample.two_outputs
           _ eq_refl eq_refl).
Defined.

(* ================================================================== *)
(** ** Records that share a name: the table as a whole *)

Module CollapseFacts.












End CollapseFacts.
Import CollapseFacts.



(** The last record decides also when its output is gone or empty: the
    name is then skipped, or switched to without a move, whatever the
    earlier records of that name say. *)
Example last_record_decides_skipping :
  sent (snd (restore_workspaces Sample.desktop
               (Sample.snapshot
                  [Sample.saved_workspace (PStr "1") (PStr "DP-1");
                   Sample.saved_workspace (PStr "1") (PStr "HDMI-2")] [])
               empty_world))
  = [].
Proof. reflexivity. Qed.

Example last_record_decides_moving :
  sent (snd (restore_workspaces Sample.desktop
               (Sample.snapshot
                  [Sample.saved_workspace (PStr "1") (PStr "DP-1");
                   Sample.saved_workspace (PStr "1") PNone] [])
               empty_world))
  = [cmd_workspace (PStr "1")].
Proof. reflexivity. Qed.
